(** * window-fetch: the request execution pipeline

    A shallow embedding of [src/request.js] (the [Request] constructor and
    [getNodeRequestOptions]) and of [src/index.js] ([fetch], its response
    handler and [fetch.isRedirect]), with the properties of the
    redirect-following state machine, of the transport-options builder and
    of the content-decoding pipeline.

    Conventions of the embedding.
    - A JavaScript string is a [string]: a sequence of 8-bit characters,
      read as the UTF-8 bytes of the text.  The case conversion of a text
      of ASCII characters is computed; that of any other text is a
      function of the platform.  A line terminator of a regular expression
      is recognised by its UTF-8 bytes.
    - A JavaScript number that the code uses as a count (status code,
      [follow], [counter], [timeout], [size]) is a [Z]: an integer that a
      double holds.  Comparisons of such integers are exact; the increment
      of the counter is the rounded one of doubles ([JS.increment]), and a
      statement that needs the counter to grow by one says in which range.
    - An absent property is [None].  For the properties that the code
      tests with [||] or with [!= null], [undefined] and [null] are both
      absent; for [follow] and [compress], which the code tests with
      [!== undefined], [None] is [undefined] and [null] is not a value of
      the embedding.
    - A promise is represented by the way it settles ([Settled]). *)

From Stdlib Require Import ZArith NArith String Ascii List Bool Lia.
From Stdlib Require Import Init.Byte Numbers.DecimalString.
From stdpp Require Import base option gmap strings list fin_maps.

Local Open Scope Z_scope.
Local Open Scope string_scope.

(** ** JavaScript strings *)

Module JS.

(** [!s] for a string: only the empty string is falsy. *)
Definition falsy (s : string) : bool :=
  match s with EmptyString => true | String _ _ => false end.

Definition truthy (s : string) : bool := negb (falsy s).

(** [a || b] where [a] is a string-valued property that may be absent. *)
Definition or_str (a : option string) (b : string) : string :=
  match a with
  | Some s => if truthy s then s else b
  | None => b
  end.

(** [a || b] where [a] is a number-valued property that may be absent. *)
Definition or_num (a : option Z) (b : Z) : Z :=
  match a with
  | Some n => if (n =? 0)%Z then b else n
  | None => b
  end.

(** [a !== undefined ? a : b] *)
Definition or_undef {A} (a : option A) (b : A) : A :=
  match a with Some x => x | None => b end.

Definition is_lower (c : ascii) : bool :=
  let n := N_of_ascii c in ((97 <=? n) && (n <=? 122))%N.

Definition is_upper (c : ascii) : bool :=
  let n := N_of_ascii c in ((65 <=? n) && (n <=? 90))%N.

Definition upper_char (c : ascii) : ascii :=
  if is_lower c then ascii_of_N (N_of_ascii c - 32) else c.

Definition lower_char (c : ascii) : ascii :=
  if is_upper c then ascii_of_N (N_of_ascii c + 32) else c.

(** [toUpperCase] and [toLowerCase] of a text of ASCII characters; the
    comparison of a regular expression with the flag [i] folds the same
    letters. *)
Fixpoint toUpperCase (s : string) : string :=
  match s with
  | EmptyString => EmptyString
  | String c s' => String (upper_char c) (toUpperCase s')
  end.

Fixpoint toLowerCase (s : string) : string :=
  match s with
  | EmptyString => EmptyString
  | String c s' => String (lower_char c) (toLowerCase s')
  end.

(** [s.startsWith(p) ? s.slice(p.length) : undefined] *)
Fixpoint strip_prefix (p s : string) : option string :=
  match p, s with
  | EmptyString, _ => Some s
  | String a p', String b s' =>
      if Ascii.eqb a b then strip_prefix p' s' else None
  | String _ _, EmptyString => None
  end.

(** A line terminator, which [.] of a regular expression refuses, begins
    the text: line feed, carriage return, or one of U+2028 and U+2029,
    whose UTF-8 bytes are E2 80 A8 and E2 80 A9. *)
Definition is_line_terminator (s : string) : bool :=
  match s with
  | EmptyString => false
  | String c s' =>
      let n := N_of_ascii c in
      ((n =? 10) || (n =? 13)
       || ((n =? 226)
           && match s' with
              | String c2 (String c3 _) =>
                  (N_of_ascii c2 =? 128)
                  && ((N_of_ascii c3 =? 168) || (N_of_ascii c3 =? 169))
              | _ => false
              end))%N
  end.

(** No line terminator begins anywhere in the text. *)
Fixpoint no_line_terminator (s : string) : bool :=
  match s with
  | EmptyString => true
  | String c s' =>
      negb (is_line_terminator (String c s')) && no_line_terminator s'
  end.

(** The text is made of ASCII characters. *)
Fixpoint ascii_only (s : string) : bool :=
  match s with
  | EmptyString => true
  | String c s' => (N_of_ascii c <? 128)%N && ascii_only s'
  end.

(** [n++] for an integer [n] that a double holds: [n + 1] rounded to the
    nearest double, ties to the even significand.  The sum is exact from
    -2^53 up to 2^53 - 1; between 2^53 and 2^54 in absolute value the
    doubles are the even integers and the sum is a tie; further out the
    sum rounds back to [n]. *)
Definition increment (n : Z) : Z :=
  (if (- 2 ^ 53 <=? n) && (n <? 2 ^ 53) then n + 1
   else if Z.abs n <? 2 ^ 54 then (if Z.even (n / 2) then n else n + 2)
   else n)%Z.

(** [String(n)] for a non-negative integer. *)
Definition string_of_N (n : N) : string :=
  NilZero.string_of_uint (N.to_uint n).

End JS.

(** ** Headers *)

Module Headers.

(** Modelled from the spec: [headers.js] is not part of the sources.  The
    spec describes the collaborator as a case-insensitive multimap from a
    header name to the list of its values, with [append], [set], [get],
    [has], [delete] and [raw].  Names are folded to lower case on every
    access; the order between different names is not represented (no
    property below depends on it). *)
Abbreviation t := (gmap string (list string)).

Definition sanitizeName (name : string) : string := JS.toLowerCase name.

Definition empty : t := ∅.

Definition has (name : string) (h : t) : bool :=
  bool_decide (is_Some (h !! sanitizeName name)).

(** [get] answers [null] for an absent name and the first value
    otherwise. *)
Definition get (name : string) (h : t) : option string :=
  h !! sanitizeName name ≫= head.

Definition getAll (name : string) (h : t) : list string :=
  default [] (h !! sanitizeName name).

Definition set (name value : string) (h : t) : t :=
  <[sanitizeName name := [value]]> h.

Definition append (name value : string) (h : t) : t :=
  <[sanitizeName name := (getAll name h ++ [value])%list]> h.

Definition delete (name : string) (h : t) : t :=
  base.delete (sanitizeName name) h.

(** [new Headers(h)] for a [Headers] instance [h]: an independent copy. *)
Definition copy (h : t) : t := h.

(** [raw()]: the underlying table from lower-case name to value list. *)
Definition raw (h : t) : t := h.

End Headers.

(** ** Data model *)

(** A request body as [Body] accepts it: a string, a buffer, a blob or a
    readable stream (named by an identifier). *)
Inductive BodySource :=
| BString (s : string)
| BBuffer (b : list byte)
| BBlob (b : list byte) (type : string)
| BStream (id : nat).

(** The connection-reuse handle: an opaque object, never inspected. *)
Inductive Agent := AgentRef (id : nat).

(** The fields of a parsed URL that the pipeline reads; [href] stands for
    the remaining ones, which are only copied. *)
Record ParsedURL := {
  protocol : option string;
  hostname : option string;
  href : string
}.

(** The options record ([init] of the constructor, [opts] of [fetch]). *)
Module Init.
Record t := {
  method : option string;
  body : option BodySource;
  headers : option Headers.t;
  redirect : option string;
  follow : option Z;
  compress : option bool;
  counter : option Z;
  agent : option Agent;
  timeout : option Z;
  size : option Z
}.

(** [{}] *)
Definition empty : t :=
  {| method := None; body := None; headers := None; redirect := None;
     follow := None; compress := None; counter := None; agent := None;
     timeout := None; size := None |}.
End Init.

(** A [Request] instance. *)
Module Request.
Record t := {
  parsedURL : ParsedURL;
  method : string;
  body : option BodySource;
  headers : Headers.t;
  redirect : string;
  follow : Z;
  compress : bool;
  counter : Z;
  agent : option Agent;
  timeout : Z;
  size : Z
}.

(** A [Request] instance read as an options record, as
    [fetch(url, request)] does when it follows a redirect. *)
Definition as_init (r : t) : Init.t :=
  {| Init.method := Some (method r);
     Init.body := body r;
     Init.headers := Some (headers r);
     Init.redirect := Some (redirect r);
     Init.follow := Some (follow r);
     Init.compress := Some (compress r);
     Init.counter := Some (counter r);
     Init.agent := agent r;
     Init.timeout := Some (timeout r);
     Init.size := Some (size r) |}.
End Request.

(** The first argument of the constructor and of [fetch]: a string, an
    object with an [href] property ([str] is what the object is coerced
    to), or a [Request]. *)
Inductive Input :=
| InString (s : string)
| InHref (href str : string)
| InRequest (r : Request.t).

Inductive TypeError := MkTypeError (message : string).

(** The [type] of a [FetchError]. *)
Inductive ErrorKind :=
| system | request_timeout | no_redirect | max_redirect | invalid_redirect.

(** Modelled from the spec: [fetch-error.js] is not part of the sources.
    A [FetchError] has a message, a kind and, for a system error, the
    message of the underlying error as its cause. *)
Record FetchError := {
  fe_message : string;
  fe_kind : ErrorKind;
  fe_cause : option string
}.

(** What [getNodeRequestOptions] returns: the parsed URL with [method],
    [headers] and [agent] added. *)
Record NodeOptions := {
  o_url : ParsedURL;
  o_method : string;
  o_headers : gmap string (list string);
  o_agent : option Agent
}.

(** A header value of Node's [IncomingMessage.headers] and of the options
    handed to [http.request]: a string or an array of strings.  The
    strings are JavaScript strings like any other: Node reads the bytes
    of the wire as latin1, so a byte of the wire above 7F is one
    character below U+0100, which takes two bytes here. *)
Inductive HeaderValue :=
| Single (v : string)
| Multi (vs : list string).

(** [!v] *)
Definition hv_falsy (v : HeaderValue) : bool :=
  match v with Single s => JS.falsy s | Multi _ => false end.

(** The response as the transport delivers it. *)
Record IncomingMessage := {
  statusCode : Z;
  statusMessage : string;
  res_headers : list (string * HeaderValue);
  chunks : list (list byte)
}.

(** What is handed to the transport: the module chosen ([https] or
    [http]), the options after the [host] hack and the body written by
    [writeToStream]. *)
Record TransportCall := {
  tc_https : bool;
  tc_url : ParsedURL;
  tc_method : string;
  tc_headers : gmap string HeaderValue;
  tc_agent : option Agent;
  tc_body : option BodySource
}.

(** What the request object emits. [EvTimeout]: the socket is assigned and
    no response arrives within the armed delay. *)
Inductive Event :=
| EvError (message : string)
| EvResponse (res : IncomingMessage)
| EvTimeout
| EvSilent.

(** [{ flush: zlib.Z_SYNC_FLUSH, finishFlush: zlib.Z_SYNC_FLUSH }] *)
Inductive ZlibOptions := SyncFlush.

(** The body of a response: the pass-through of the raw stream, possibly
    piped into one zlib transform, or a blob ([new Blob([data], { type })];
    [blob.js] is not part of the sources and a blob is kept as the
    arguments of its constructor). *)

Inductive ResponseBody :=
| PassThrough (raw : list (list byte))
| Gunzip (o : ZlibOptions) (src : ResponseBody)
| Inflate (src : ResponseBody)
| InflateRaw (src : ResponseBody)
| BlobBody (data : list byte) (type : option string).

(** The [size] option of a response: a number taken from the request, or
    the [byteLength] property of the blob, which the blob collaborator
    defines. *)
Inductive SizeOption := SizeNumber (n : Z) | SizeBlobByteLength.

Record ResponseInit := {
  ri_url : string;
  ri_status : Z;
  ri_statusText : string;
  ri_headers : Headers.t;
  ri_size : SizeOption;
  ri_timeout : option Z
}.

(** Modelled from the spec: [response.js] is not part of the sources.  A
    response is kept as the arguments of [new Response(body, options)]:
    the body and the fields of a ResponseDescriptor in the spec. *)
Record Response := {
  resp_body : ResponseBody;
  resp_options : option ResponseInit
}.

Inductive IOError := MkIOError (code : string).

Inductive Rejection :=
| RejFetch (e : FetchError)
| RejType (e : TypeError)
| RejIO (e : IOError).

(** How the promise of [fetch] settles; [Pending] when it never does. *)
Inductive Settled :=
| Resolved (r : Response)
| Rejected (e : Rejection)
| Pending.

(** ** The collaborators *)

(** The functions of the platform and of the modules that are not part of
    the sources ([url], [body.js], [fs], the HTTP transport).  The
    pipeline is parametrised by them. *)
Class Env := {
  parse_url : string -> ParsedURL;
  format_url : ParsedURL -> string;
  resolve_url : string -> HeaderValue -> string;
  (** [getTotalBytes]: the byte size of a body, when it is a number *)
  getTotalBytes : BodySource -> option N;
  (** [clone]: the body of an instance, duplicated *)
  clone : BodySource -> BodySource;
  extractContentType : BodySource -> option string;
  (** the transport: what the [n]-th call of one fetch emits *)
  send : nat -> TransportCall -> Event;
  readFile : string -> IOError + list byte;
  (** [String.prototype.toUpperCase] on a text that is not made of ASCII
      characters only: the case tables of the platform.  An upper-cased
      text is not empty and is its own upper case. *)
  toUpperCase_unicode : string -> string;
  toUpperCase_unicode_truthy :
    forall s, JS.ascii_only s = false ->
      JS.truthy (toUpperCase_unicode s) = true;
  toUpperCase_unicode_stable :
    forall s, JS.ascii_only s = false ->
      (if JS.ascii_only (toUpperCase_unicode s)
       then JS.toUpperCase (toUpperCase_unicode s)
       else toUpperCase_unicode (toUpperCase_unicode s))
      = toUpperCase_unicode s
}.

Section Pipeline.

Context {env : Env}.

(** ** request.js *)

(** [get url()] *)
Definition url (r : Request.t) : string := format_url (Request.parsedURL r).

(** [method.toUpperCase()] *)
Definition String_toUpperCase (s : string) : string :=
  if JS.ascii_only s then JS.toUpperCase s else toUpperCase_unicode s.

(** [input.method], [input.timeout], ... after [input] is normalised: the
    property of the prior [Request], absent for the [{}] that replaces any
    other input. *)
Definition prior (input : Input) : option Request.t :=
  match input with InRequest r => Some r | _ => None end.

(** [input instanceof Request && input.body !== null] *)
Definition inherits_body (input : Input) : bool :=
  match input with
  | InRequest r => bool_decide (is_Some (Request.body r))
  | _ => false
  end.

Definition is_GET_or_HEAD (method : string) : bool :=
  String.eqb method "GET" || String.eqb method "HEAD".

(** Modelled from the spec: [body.js] is not part of the sources.
    [Body.call(this, body, { timeout, size })] keeps its arguments as the
    fields [body], [timeout] and [size] of the instance, the [body],
    [timeoutMs] and [sizeLimitBytes] of a descriptor in the spec; a body
    of one of the four accepted kinds is kept as it is. *)
Definition Body_call (body : option BodySource) (timeout size : Z)
  : option BodySource * Z * Z :=
  (body, timeout, size).

(** [init.method || input.method || 'GET']: the method as the caller wrote
    it, before it is upper-cased. *)
Definition requested_method (input : Input) (init : Init.t) : string :=
  JS.or_str (Init.method init)
    (JS.or_str (Request.method <$> prior input) "GET").

(** [new Request(input, init)] *)
Definition Request_constructor (input : Input) (init : Init.t)
  : TypeError + Request.t :=
  let parsedURL :=
    match input with
    | InRequest r => parse_url (url r)
    | InHref h str => if JS.truthy h then parse_url h else parse_url str
    | InString s => parse_url s
    end in
  let method := requested_method input init in
  if (bool_decide (is_Some (Init.body init)) || inherits_body input)
     && is_GET_or_HEAD method
  then inl (MkTypeError "Request with GET/HEAD method cannot have body")
  else
    let inputBody :=
      match Init.body init with
      | Some b => Some b
      | None =>
          match input with
          | InRequest r => clone <$> Request.body r
          | _ => None
          end
      end in
    let '(body, timeout, size) :=
      Body_call inputBody
        (JS.or_num (Init.timeout init)
           (JS.or_num (Request.timeout <$> prior input) 0))
        (JS.or_num (Init.size init)
           (JS.or_num (Request.size <$> prior input) 0)) in
    let redirect :=
      JS.or_str (Init.redirect init)
        (JS.or_str (Request.redirect <$> prior input) "follow") in
    let headers :=
      Headers.copy
        (JS.or_undef (Init.headers init)
           (JS.or_undef (Request.headers <$> prior input) Headers.empty)) in
    let headers :=
      match Init.body init with
      | Some b =>
          match extractContentType b with
          | Some contentType =>
              if Headers.has "Content-Type" headers then headers
              else Headers.append "Content-Type" contentType headers
          | None => headers
          end
      | None => headers
      end in
    inr {| Request.parsedURL := parsedURL;
           Request.method := String_toUpperCase method;
           Request.body := body;
           Request.headers := headers;
           Request.redirect := redirect;
           Request.follow :=
             JS.or_undef (Init.follow init)
               (JS.or_undef (Request.follow <$> prior input) 20);
           Request.compress :=
             JS.or_undef (Init.compress init)
               (JS.or_undef (Request.compress <$> prior input) true);
           Request.counter :=
             JS.or_num (Init.counter init)
               (JS.or_num (Request.counter <$> prior input) 0);
           Request.agent :=
             match Init.agent init with
             | Some a => Some a
             | None => prior input ≫= Request.agent
             end;
           Request.timeout := timeout;
           Request.size := size |}.

(** [!parsedURL.protocol]: an absent or empty component is falsy. *)
Definition missing (c : option string) : bool :=
  match c with Some s => JS.falsy s | None => true end.

(** [/^https?:$/.test(protocol)] *)
Definition is_http_protocol (p : string) : bool :=
  String.eqb p "http:" || String.eqb p "https:".

(** [/^(POST|PUT)$/i.test(method)]: the [i] flag compares the ASCII
    letters without their case. *)
Definition is_POST_or_PUT (method : string) : bool :=
  String.eqb (JS.toUpperCase method) "POST"
  || String.eqb (JS.toUpperCase method) "PUT".

(** The value computed for [Content-Length] by steps 5-9, [None] for
    [null]. *)
Definition contentLengthValue (request : Request.t) : option string :=
  let v :=
    if bool_decide (Request.body request = None)
       && is_POST_or_PUT (Request.method request)
    then Some "0" else None in
  match Request.body request with
  | Some b =>
      match getTotalBytes b with
      | Some totalBytes => Some (JS.string_of_N totalBytes)
      | None => v
      end
  | None => v
  end.

(** [getNodeRequestOptions(request)] *)
Definition getNodeRequestOptions (request : Request.t)
  : TypeError + NodeOptions :=
  let parsedURL := Request.parsedURL request in
  let headers := Headers.copy (Request.headers request) in
  let headers :=
    if Headers.has "Accept" headers then headers
    else Headers.set "Accept" "*/*" headers in
  if missing (protocol parsedURL) || missing (hostname parsedURL)
  then inl (MkTypeError "Only absolute URLs are supported")
  else if negb (is_http_protocol (default "" (protocol parsedURL)))
  then inl (MkTypeError "Only HTTP(S) protocols are supported")
  else
    let headers :=
      match contentLengthValue request with
      | Some v =>
          if JS.truthy v then Headers.set "Content-Length" v headers
          else headers
      | None => headers
      end in
    let headers :=
      if Headers.has "User-Agent" headers then headers
      else Headers.set "User-Agent"
             "node-fetch/1.0 (+https://github.com/bitinn/node-fetch)" headers in
    let headers :=
      if Request.compress request
      then Headers.set "Accept-Encoding" "gzip,deflate" headers
      else headers in
    let headers :=
      if negb (Headers.has "Connection" headers)
         && negb (bool_decide (is_Some (Request.agent request)))
      then Headers.set "Connection" "close" headers
      else headers in
    inr {| o_url := parsedURL;
           o_method := Request.method request;
           o_headers := Headers.raw headers;
           o_agent := Request.agent request |}.

(** ** index.js *)

(** [fetch.isRedirect] *)
Definition isRedirect (code : Z) : bool :=
  (code =? 301)%Z || (code =? 302)%Z || (code =? 303)%Z
  || (code =? 307)%Z || (code =? 308)%Z.

(** [res.headers[name]]: the property of Node's header object. *)
Fixpoint header_prop (name : string) (o : list (string * HeaderValue))
  : option HeaderValue :=
  match o with
  | [] => None
  | (k, v) :: o' => if String.eqb k name then Some v else header_prop name o'
  end.

(** The loop over [Object.keys(res.headers)] that fills a fresh
    [Headers]. *)
Definition append_header (h : Headers.t) (kv : string * HeaderValue)
  : Headers.t :=
  match kv.2 with
  | Multi vs => foldl (fun h val => Headers.append kv.1 val h) h vs
  | Single v => Headers.append kv.1 v h
  end.

Definition normalize_headers (o : list (string * HeaderValue)) : Headers.t :=
  foldl append_header Headers.empty o.

(** [(chunk[0] & 0x0F) === 0x08]; an absent first byte reads as 0. *)
Definition zlib_header (chunk : list byte) : bool :=
  (Z.land (match head chunk with
           | Some b => Z.of_N (Byte.to_N b)
           | None => 0
           end) 15 =? 8)%Z.

(** The method is rewritten to GET for a 303 response, and for a 301 or
    302 response to a POST request. *)
Definition rewrites_to_GET (status : Z) (method : string) : bool :=
  (status =? 303)%Z
  || (((status =? 301)%Z || (status =? 302)%Z) && String.eqb method "POST").

(** What the handler of the [response] event does: it settles the promise,
    or resolves it with a further [fetch(url, request)]. *)
Inductive Step :=
| Settle (s : Settled)
| Follow (next_url : string) (request : Request.t).

Definition reject (message : string) (kind : ErrorKind) : Step :=
  Settle (Rejected (RejFetch {| fe_message := message;
                                fe_kind := kind;
                                fe_cause := None |})).

(** [codings == s] for the value of [headers.get('Content-Encoding')] *)
Definition codings_is (codings : option string) (s : string) : bool :=
  match codings with Some c => String.eqb c s | None => false end.

(** The headers of the response: the normalised ones, with [location]
    made absolute in manual redirect mode. *)
Definition response_headers (request : Request.t) (res : IncomingMessage)
  : Headers.t :=
  let headers := normalize_headers (res_headers res) in
  if String.eqb (Request.redirect request) "manual"
     && Headers.has "location" headers
  then Headers.set "location"
         (resolve_url (url request)
            (Single (default "" (Headers.get "location" headers))))
         headers
  else headers.

Definition response_options (request : Request.t) (res : IncomingMessage)
  : ResponseInit :=
  {| ri_url := url request;
     ri_status := statusCode res;
     ri_statusText := statusMessage res;
     ri_headers := response_headers request res;
     ri_size := SizeNumber (Request.size request);
     ri_timeout := Some (Request.timeout request) |}.

(** [resolve(new Response(body, response_options))] *)
Definition respond (request : Request.t) (res : IncomingMessage)
    (body : ResponseBody) : Step :=
  Settle (Resolved {| resp_body := body;
                      resp_options := Some (response_options request res) |}).

(** The part of the handler after the redirect block: header
    normalisation and content decoding. *)
Definition terminal (request : Request.t) (res : IncomingMessage) : Step :=
  let body := PassThrough (chunks res) in
  let codings := Headers.get "Content-Encoding" (response_headers request res) in
  if negb (Request.compress request)
     || String.eqb (Request.method request) "HEAD"
     || bool_decide (codings = None)
     || (statusCode res =? 204)%Z || (statusCode res =? 304)%Z
  then respond request res body
  else if codings_is codings "gzip" || codings_is codings "x-gzip"
  then respond request res (Gunzip SyncFlush body)
  else if codings_is codings "deflate" || codings_is codings "x-deflate"
  then
    (* raw.once('data', chunk => ...) *)
    match chunks res with
    | chunk :: _ =>
        if zlib_header chunk then respond request res (Inflate body)
        else respond request res (InflateRaw body)
    | [] => Settle Pending
    end
  else respond request res body.

(** [request.method = 'GET'; request.body = null;
    request.headers.delete('content-length')] *)
Definition rewrite_to_GET (request : Request.t) : Request.t :=
  {| Request.parsedURL := Request.parsedURL request;
     Request.method := "GET";
     Request.body := None;
     Request.headers :=
       Headers.delete "content-length" (Request.headers request);
     Request.redirect := Request.redirect request;
     Request.follow := Request.follow request;
     Request.compress := Request.compress request;
     Request.counter := Request.counter request;
     Request.agent := Request.agent request;
     Request.timeout := Request.timeout request;
     Request.size := Request.size request |}.

(** [request.counter++] *)
Definition increment_counter (request : Request.t) : Request.t :=
  {| Request.parsedURL := Request.parsedURL request;
     Request.method := Request.method request;
     Request.body := Request.body request;
     Request.headers := Request.headers request;
     Request.redirect := Request.redirect request;
     Request.follow := Request.follow request;
     Request.compress := Request.compress request;
     Request.counter := JS.increment (Request.counter request);
     Request.agent := Request.agent request;
     Request.timeout := Request.timeout request;
     Request.size := Request.size request |}.

(** The request after the handler has prepared it for the next hop: the
    method, body and headers rewritten when the rule applies, then the
    counter incremented. *)
Definition redirected (status : Z) (request : Request.t) : Request.t :=
  increment_counter
    (if rewrites_to_GET status (Request.method request)
     then rewrite_to_GET request
     else request).

(** [req.on('response', res => ...)] *)
Definition on_response (request : Request.t) (res : IncomingMessage) : Step :=
  if isRedirect (statusCode res)
     && negb (String.eqb (Request.redirect request) "manual")
  then
    if String.eqb (Request.redirect request) "error"
    then reject ("redirect mode is set to error: " +:+ url request)
           no_redirect
    else if (Request.counter request >=? Request.follow request)%Z
    then reject ("maximum redirect reached at: " +:+ url request)
           max_redirect
    else
      match header_prop "location" (res_headers res) with
      | None =>
          reject ("redirect location header missing at: " +:+ url request)
            invalid_redirect
      | Some location =>
          if hv_falsy location
          then
            reject ("redirect location header missing at: " +:+ url request)
              invalid_redirect
          else
            Follow (resolve_url (url request) location)
              (redirected (statusCode res) request)
      end
  else terminal request res.

(** [url.match] with the pattern [^file://] followed by a captured run of
    [.] up to [$]: the captured path.  [.] refuses line terminators and
    [$] is the end of the string. *)
Definition match_file (url : string) : option string :=
  match JS.strip_prefix "file://" url with
  | Some path => if JS.no_line_terminator path then Some path else None
  | None => None
  end.

(** [url.match] with the pattern [^data:] [(.+?)] [(;base64)?] [,], after
    the prefix and a first character of the type: the lazy [.+?] grows the type one character at a
    time, and at each length the optional group is tried before the bare
    comma.  The result is the type, whether the group matched, and what
    follows the match ([url.slice(all.length)]). *)
Fixpoint data_scan (type rest : string) : option (string * bool * string) :=
  match JS.strip_prefix ";base64," rest with
  | Some dataString => Some (type, true, dataString)
  | None =>
      match JS.strip_prefix "," rest with
      | Some dataString => Some (type, false, dataString)
      | None =>
          match rest with
          | EmptyString => None
          | String c rest' =>
              if JS.is_line_terminator rest then None
              else data_scan (type +:+ String c EmptyString) rest'
          end
      end
  end.

Definition match_data (url : string) : option (string * bool * string) :=
  match JS.strip_prefix "data:" url with
  | Some (String c rest) =>
      if JS.is_line_terminator (String c rest) then None
      else data_scan (String c EmptyString) rest
  | _ => None
  end.

(** The base64 decoder of the platform's [Buffer]: characters outside the
    alphabet are skipped, decoding stops at the first [=], and the
    URL-safe [-] and [_] are accepted. *)
Definition unbase64 (c : ascii) : option N :=
  let n := N_of_ascii c in
  if ((65 <=? n) && (n <=? 90))%N then Some (n - 65)%N
  else if ((97 <=? n) && (n <=? 122))%N then Some (n - 71)%N
  else if ((48 <=? n) && (n <=? 57))%N then Some (n + 4)%N
  else if ((n =? 43) || (n =? 45))%N then Some 62%N
  else if ((n =? 47) || (n =? 95))%N then Some 63%N
  else None.

Fixpoint sextets (s : string) : list N :=
  match s with
  | EmptyString => []
  | String c s' =>
      if Ascii.eqb c "=" then []
      else match unbase64 c with
           | Some v => v :: sextets s'
           | None => sextets s'
           end
  end.

Definition octet (n : N) : byte := default x00 (Byte.of_N (n mod 256)%N).

Fixpoint octets (l : list N) : list byte :=
  match l with
  | a :: b :: c :: d :: l' =>
      octet (a * 4 + b / 16) :: octet (b * 16 + c / 4) :: octet (c * 64 + d)
      :: octets l'
  | [a; b; c] => [octet (a * 4 + b / 16); octet (b * 16 + c / 4)]
  | [a; b] => [octet (a * 4 + b / 16)]
  | _ => []
  end.

(** [new Buffer(dataString, isBase64 ? 'base64' : 'utf8')] *)
Definition new_Buffer (dataString : string) (isBase64 : bool) : list byte :=
  if isBase64 then octets (sextets dataString)
  else list_byte_of_string dataString.

(** The options after [options.headers.host = options.headers.host[0]],
    with the body that [writeToStream] sends. *)
Definition transport_call (options : NodeOptions) (request : Request.t)
  : TransportCall :=
  let headers : gmap string HeaderValue := Multi <$> o_headers options in
  let headers :=
    match o_headers options !! "host" with
    | Some (host0 :: _) => <["host" := Single host0]> headers
    | Some [] => base.delete "host" headers
    | None => headers
    end in
  {| tc_https :=
       bool_decide (protocol (o_url options) = Some "https:");
     tc_url := o_url options;
     tc_method := o_method options;
     tc_headers := headers;
     tc_agent := o_agent options;
     tc_body := Request.body request |}.

(** The closure [_default] of [fetch]: build the request and the options,
    send, and handle the event that comes back.  [fetch_next] is the call
    [fetch(url, request)] that follows a redirect; [n] counts the transport
    calls already issued.  The result is the list of transport calls
    issued, in order, and the way the promise settles ([None] when the
    model ran out of fuel). *)
Definition _default
    (fetch_next : Input -> Init.t -> list TransportCall * option Settled)
    (n : nat) (url_ : Input) (opts : Init.t)
  : list TransportCall * option Settled :=
  match Request_constructor url_ opts with
  | inl e => ([], Some (Rejected (RejType e)))
  | inr request =>
      match getNodeRequestOptions request with
      | inl e => ([], Some (Rejected (RejType e)))
      | inr options =>
          let call := transport_call options request in
          match send n call with
          | EvError message =>
              ([call],
               Some (Rejected (RejFetch
                 {| fe_message :=
                      "request to " +:+ url request
                      +:+ " failed, reason: " +:+ message;
                    fe_kind := system;
                    fe_cause := Some message |})))
          | EvTimeout =>
              if (Request.timeout request =? 0)%Z
              then ([call], Some Pending)
              else
                ([call],
                 Some (Rejected (RejFetch
                   {| fe_message := "network timeout at: " +:+ url request;
                      fe_kind := request_timeout;
                      fe_cause := None |})))
          | EvSilent => ([call], Some Pending)
          | EvResponse res =>
              match on_response request res with
              | Settle s => ([call], Some s)
              | Follow next_url request' =>
                  let '(calls, s) :=
                    fetch_next (InString next_url)
                      (Request.as_init request') in
                  (call :: calls, s)
              end
          end
      end
  end.

(** The response built for a [data:] URL. *)
Definition data_response (url_ type : string) (isBase64 : bool)
    (dataString : string) : Response :=
  let dataBuffer := new_Buffer dataString isBase64 in
  let body := BlobBody dataBuffer (Some type) in
  let responseOptions :=
    {| ri_url := url_;
       ri_status := 200;
       ri_statusText := "OK";
       ri_headers := Headers.set "Content-Type" type Headers.empty;
       ri_size := SizeBlobByteLength;
       ri_timeout := None |} in
  {| resp_body := body; resp_options := Some responseOptions |}.

(** [fetch(url, opts)].  Each level of [fuel] pays for one call of
    [fetch]. *)
Fixpoint fetch (fuel n : nat) (url_ : Input) (opts : Init.t)
  : list TransportCall * option Settled :=
  match fuel with
  | O => ([], None)
  | S fuel' =>
      match url_ with
      | InString s =>
          match match_file s with
          | Some path =>
              match readFile path with
              | inr data =>
                  ([], Some (Resolved {| resp_body := BlobBody data None;
                                         resp_options := None |}))
              | inl err => ([], Some (Rejected (RejIO err)))
              end
          | None =>
              match match_data s with
              | Some (type, isBase64, dataString) =>
                  ([], Some (Resolved
                               (data_response s type isBase64 dataString)))
              | None => _default (fetch fuel' (S n)) n url_ opts
              end
          end
      | _ => _default (fetch fuel' (S n)) n url_ opts
      end
  end.

End Pipeline.

(** ** The notions of the statements *)

(** The invariant of a descriptor: no body with GET or HEAD. *)
Definition body_allowed (r : Request.t) : Prop :=
  is_GET_or_HEAD (Request.method r) = true -> Request.body r = None.

(** The response carries no header of that name, in any letter case. *)
Definition lacks_header (name : string) (res : IncomingMessage) : Prop :=
  Forall (fun kv : string * HeaderValue =>
            Headers.sanitizeName kv.1 <> Headers.sanitizeName name)
         (res_headers res).

(** The handler does not enter the redirect block. *)
Definition is_terminal (request : Request.t) (res : IncomingMessage) : Prop :=
  isRedirect (statusCode res) = false \/ Request.redirect request = "manual".

(** The low nibble of a byte. *)
Definition low_nibble (b : byte) : Z := Z.land (Z.of_N (Byte.to_N b)) 15.

(** The rule of the fetch standard that the handler applies: a 303
    response, or a 301 or 302 response to a POST request. *)
Definition downgrades (status : Z) (method : string) : Prop :=
  status = 303 \/ ((status = 301 \/ status = 302) /\ method = "POST").

(** [fetch(next_url, request)] begins with [new Request(next_url, request)]:
    the descriptor of the next hop. *)
Definition next_hop {env : Env} (next_url : string) (request : Request.t)
  : TypeError + Request.t :=
  Request_constructor (InString next_url) (Request.as_init request).


(** The alphabet of base64 (RFC 4648): the character of a 6-bit value. *)
Definition base64_char (n : N) : ascii :=
  (if n <? 26 then ascii_of_N (n + 65)
   else if n <? 52 then ascii_of_N (n + 71)
   else if n <? 62 then ascii_of_N (n - 4)
   else if n =? 62 then "+"%char
   else "/"%char)%N.

(** The base64 encoding of a byte sequence: three bytes make four
    characters, and a last group of one or two bytes is padded with [=]. *)
Fixpoint base64 (l : list byte) : string :=
  match l with
  | a :: b :: c :: l' =>
      let x := Byte.to_N a in
      let y := Byte.to_N b in
      let z := Byte.to_N c in
      String (base64_char (x / 4))
        (String (base64_char ((x mod 4) * 16 + y / 16))
           (String (base64_char ((y mod 16) * 4 + z / 64))
              (String (base64_char (z mod 64)) (base64 l'))))%N
  | [a; b] =>
      let x := Byte.to_N a in
      let y := Byte.to_N b in
      String (base64_char (x / 4))
        (String (base64_char ((x mod 4) * 16 + y / 16))
           (String (base64_char ((y mod 16) * 4)) "="))%N
  | [a] =>
      let x := Byte.to_N a in
      String (base64_char (x / 4))
        (String (base64_char ((x mod 4) * 16)) "==")%N
  | [] => EmptyString
  end.

(** What a caller reads from a response: its status, a header, and the
    bytes of a blob body. *)
Definition status_of (r : Response) : option Z :=
  ri_status <$> resp_options r.

Definition header_of (name : string) (r : Response) : option string :=
  resp_options r ≫= fun o => Headers.get name (ri_headers o).






(** The mode in which redirects are followed: neither [manual] nor
    [error]. *)
Definition follows_redirects (r : Request.t) : Prop :=
  Request.redirect r <> "manual" /\ Request.redirect r <> "error".

(** One followed redirect: the handler follows, and [fetch] builds the
    descriptor of the next hop. *)
Inductive hop {env : Env} : Request.t -> Request.t -> Prop :=
| hop_intro request res next_url request' next :
    on_response request res = Follow next_url request' ->
    next_hop next_url request' = inr next ->
    hop request next.

(** The range in which the counter of a descriptor counts: it is not
    below -2^53 and its limit is not above 2^53, so that every increment
    below the limit is exact. *)
Definition exact_range (r : Request.t) : Prop :=
  - 2 ^ 53 <= Request.counter r /\ Request.follow r <= 2 ^ 53.


(** ** A reference platform

    A small instance of the collaborators, for the closed examples: URLs
    are split at the scheme and the host, a relative location is taken as
    it is, the transport is a function given by the example, and a text
    that is not made of ASCII characters is its own upper case (the
    platform has no case tables). *)

Fixpoint split_at (sep : ascii) (s : string) : option (string * string) :=
  match s with
  | EmptyString => None
  | String c s' =>
      if Ascii.eqb c sep then Some (EmptyString, s')
      else match split_at sep s' with
           | Some (a, b) => Some (String c a, b)
           | None => None
           end
  end.

Definition simple_parse_url (s : string) : ParsedURL :=
  match split_at ":" s with
  | Some (scheme, rest) =>
      {| protocol := Some (scheme +:+ ":");
         hostname :=
           match JS.strip_prefix "//" rest with
           | Some authority =>
               match split_at "/" authority with
               | Some (host, _) => Some host
               | None => Some authority
               end
           | None => None
           end;
         href := s |}
  | None => {| protocol := None; hostname := None; href := s |}
  end.

Definition simple_byte_size (b : BodySource) : option N :=
  match b with
  | BString s => Some (N.of_nat (String.length s))
  | BBuffer d => Some (N.of_nat (List.length d))
  | BBlob d _ => Some (N.of_nat (List.length d))
  | BStream _ => None
  end.

Definition simple_env (transport : nat -> TransportCall -> Event) : Env :=
  {| parse_url := simple_parse_url;
     format_url := href;
     resolve_url := fun _ location =>
       match location with Single l => l | Multi _ => EmptyString end;
     getTotalBytes := simple_byte_size;
     clone := fun b => b;
     extractContentType := fun b =>
       match b with
       | BString _ => Some "text/plain;charset=UTF-8"
       | BBlob _ type => Some type
       | _ => None
       end;
     send := transport;
     readFile := fun _ => inl (MkIOError "ENOENT");
     toUpperCase_unicode := fun s => s;
     toUpperCase_unicode_truthy :=
       ltac:(intros [|c s] H; [discriminate H | reflexivity]);
     toUpperCase_unicode_stable :=
       ltac:(intros s H; cbv beta; rewrite H; reflexivity) |}.

(** A server that answers every request with the same redirect. *)
Definition always_redirect (status : Z) (location : string)
  : nat -> TransportCall -> Event :=
  fun _ _ =>
    EvResponse {| statusCode := status;
                  statusMessage := "Redirect";
                  res_headers := [("location", Single location)];
                  chunks := [] |}.

(** A server that never answers. *)
Definition silent : nat -> TransportCall -> Event := fun _ _ => EvSilent.

(** A descriptor as the constructor builds it for [url_] with the default
    options, for the given method, body and headers. *)
Definition plain_request (url_ method : string) (body : option BodySource)
    (headers : Headers.t) : Request.t :=
  {| Request.parsedURL := simple_parse_url url_;
     Request.method := method;
     Request.body := body;
     Request.headers := headers;
     Request.redirect := "follow";
     Request.follow := 20;
     Request.compress := true;
     Request.counter := 0;
     Request.agent := None;
     Request.timeout := 0;
     Request.size := 0 |}.

(** A GET request whose caller supplied [Accept-Encoding: br]. *)
Definition request_accepting_br : Request.t :=
  plain_request "http://example.com/" "GET" None
    {[ "accept-encoding" := ["br"] ]}.

(** A GET request whose caller supplied [Content-Length: 5]. *)
Definition request_with_length : Request.t :=
  plain_request "http://example.com/" "GET" None
    {[ "content-length" := ["5"] ]}.

(** A POST request that uploads a stream, of a size that only the caller
    knows and declares with [Content-Length: 5]. *)
Definition stream_upload : Request.t :=
  plain_request "http://example.com/" "POST" (Some (BStream 0))
    {[ "content-length" := ["5"] ]}.

(** A POST request without a body. *)
Definition empty_post : Request.t :=
  plain_request "http://example.com/" "POST" None ∅.

(** The options [{ method: m, body: b }]. *)
Definition method_and_body (m : string) (b : BodySource) : Init.t :=
  {| Init.method := Some m; Init.body := Some b;
     Init.headers := None; Init.redirect := None; Init.follow := None;
     Init.compress := None; Init.counter := None; Init.agent := None;
     Init.timeout := None; Init.size := None |}.

(** The options [{ method: 'get', body: 'x' }]. *)
Definition lowercase_get_with_body : Init.t :=
  method_and_body "get" (BString "x").

(** The options [{ counter: 0, timeout: 0, size: 0 }]. *)
Definition zero_options : Init.t :=
  {| Init.method := None; Init.body := None;
     Init.headers := None; Init.redirect := None; Init.follow := None;
     Init.compress := None; Init.counter := Some 0; Init.agent := None;
     Init.timeout := Some 0; Init.size := Some 0 |}.

(** A descriptor that has followed three redirects, with a timeout and a
    size limit. *)
Definition redirected_thrice : Request.t :=
  {| Request.parsedURL := simple_parse_url "http://example.com/";
     Request.method := "GET";
     Request.body := None;
     Request.headers := ∅;
     Request.redirect := "follow";
     Request.follow := 20;
     Request.compress := true;
     Request.counter := 3;
     Request.agent := None;
     Request.timeout := 500;
     Request.size := 1024 |}.

Definition get_request : Request.t :=
  plain_request "http://example.com/" "GET" None ∅.

Definition head_request : Request.t :=
  plain_request "http://example.com/" "HEAD" None ∅.

(** A POST request with a body, its [Content-Type] and a [Content-Length]
    of the caller. *)
Definition post_request : Request.t :=
  plain_request "http://example.com/" "POST" (Some (BString "a=1"))
    (<[ "content-type" := ["text/plain;charset=UTF-8"] ]>
       {[ "content-length" := ["3"] ]}).

Definition response_of (status : Z) (headers : list (string * HeaderValue))
    (body : list (list byte)) : IncomingMessage :=
  {| statusCode := status; statusMessage := "";
     res_headers := headers; chunks := body |}.

(** A 302 response whose [Location] header has an empty value. *)
Definition empty_location_response : IncomingMessage :=
  response_of 302 [("location", Single "")] [].

Definition redirect_response (status : Z) : IncomingMessage :=
  response_of status [("location", Single "http://example.com/next")] [].

(** A 200 response with [Content-Encoding: gzip]. *)
Definition gzip_response : IncomingMessage :=
  response_of 200 [("content-encoding", Single "gzip")] [[x1f; x8b; x08]].

(** A 200 response with [Content-Encoding: deflate] and the given first
    chunk. *)
Definition deflate_response (chunk : list byte) : IncomingMessage :=
  response_of 200 [("content-encoding", Single "deflate")] [chunk].

(** The options [{ follow: f }] and [{ follow: f, counter: c }]. *)
Definition follow_options (f : Z) (c : option Z) : Init.t :=
  {| Init.method := None; Init.body := None;
     Init.headers := None; Init.redirect := None; Init.follow := Some f;
     Init.compress := None; Init.counter := c; Init.agent := None;
     Init.timeout := None; Init.size := None |}.

(** The reference platform in front of a server that redirects every
    request to the same place. *)
Definition redirecting_env : Env :=
  simple_env (always_redirect 302 "http://example.com/next").

(** ** Further notions and examples *)

(** [clone()]: [new Request(this)] *)
Definition Request_clone {env : Env} (this : Request.t)
  : TypeError + Request.t :=
  Request_constructor (InRequest this) Init.empty.

(** [init.headers || input.headers || {}]: the headers that the
    constructor copies. *)
Definition chosen_headers (input : Input) (init : Init.t) : Headers.t :=
  JS.or_undef (Init.headers init)
    (JS.or_undef (Request.headers <$> prior input) Headers.empty).

(** The names of the headers that the builder may write. *)
Definition builder_names : list string :=
  ["accept"; "content-length"; "user-agent"; "accept-encoding"; "connection"].

(** A request for an [ftp:] URL, and one for a relative URL. *)
Definition ftp_request : Request.t :=
  plain_request "ftp://example.com/file" "GET" None ∅.

Definition relative_request : Request.t :=
  plain_request "/path/only" "GET" None ∅.

(** A GET request that goes through a connection-reuse agent and carries
    a header of the caller. *)
Definition agent_request : Request.t :=
  {| Request.parsedURL := simple_parse_url "http://example.com/";
     Request.method := "GET";
     Request.body := None;
     Request.headers := {[ "x-trace" := ["abc"] ]};
     Request.redirect := "follow";
     Request.follow := 20;
     Request.compress := false;
     Request.counter := 0;
     Request.agent := Some (AgentRef 1);
     Request.timeout := 0;
     Request.size := 0 |}.

(** The options [{ method: 'POST', body: 'a=1' }]. *)
Definition post_options : Init.t := method_and_body "POST" (BString "a=1").

(** The values of a header of the transport: one, or those of the
    array. *)
Definition header_values (v : HeaderValue) : list string :=
  match v with Single s => [s] | Multi vs => vs end.

(** The values that a response carries under a name, in any letter case,
    in the order of the response. *)
Fixpoint values_of (name : string) (o : list (string * HeaderValue))
  : list string :=
  match o with
  | [] => []
  | kv :: o' =>
      ((if decide (Headers.sanitizeName kv.1 = Headers.sanitizeName name)
        then header_values kv.2 else [])
       ++ values_of name o')%list
  end.

(** A response with two [Set-Cookie] values and a header in mixed case. *)
Definition cookie_response : IncomingMessage :=
  response_of 200
    [("set-cookie", Multi ["a=1"; "b=2"]); ("X-Id", Single "7");
     ("set-cookie", Single "c=3")] [].

(** A request in manual redirect mode. *)
Definition manual_request : Request.t :=
  {| Request.parsedURL := simple_parse_url "http://example.com/";
     Request.method := "GET";
     Request.body := None;
     Request.headers := ∅;
     Request.redirect := "manual";
     Request.follow := 20;
     Request.compress := true;
     Request.counter := 0;
     Request.agent := None;
     Request.timeout := 0;
     Request.size := 0 |}.

(** A 200 response with the given [Content-Encoding] and chunks. *)
Definition encoded_response (coding : string) (body : list (list byte))
  : IncomingMessage :=
  response_of 200 [("content-encoding", Single coding)] body.

(** An input that [fetch] hands to [_default]: anything but a string that
    one of the two patterns matches. *)
Definition network_input (url_ : Input) : Prop :=
  match url_ with
  | InString s => match_file s = None /\ match_data s = None
  | _ => True
  end.

(** The redirects that a fetch may still follow: what separates the
    counter of its descriptor from the limit. *)
Definition hops_left {env : Env} (url_ : Input) (opts : Init.t) : nat :=
  match Request_constructor url_ opts with
  | inr request =>
      Z.to_nat (Request.follow request - Request.counter request)
  | inl _ => 0%nat
  end.

(** The kind of the [FetchError] that rejects a promise, if one does. *)
Definition rejection_kind (settled : option Settled) : option ErrorKind :=
  match settled with
  | Some (Rejected (RejFetch e)) => Some (fe_kind e)
  | _ => None
  end.

(** What [fetch] resolves or rejects with after reading a local file. *)
Definition file_outcome {env : Env} (path : string) : Settled :=
  match readFile path with
  | inr data => Resolved {| resp_body := BlobBody data None;
                            resp_options := None |}
  | inl err => Rejected (RejIO err)
  end.

(** The reference platform with one readable file, in front of a server
    that redirects every request to that file. *)
Definition file_env : Env :=
  {| parse_url := simple_parse_url;
     format_url := href;
     resolve_url := fun _ location =>
       match location with Single l => l | Multi _ => EmptyString end;
     getTotalBytes := simple_byte_size;
     clone := fun b => b;
     extractContentType := fun _ => None;
     send := always_redirect 302 "file:///etc/hosts";
     readFile := fun path =>
       if String.eqb path "/etc/hosts"
       then inr (list_byte_of_string "127.0.0.1 localhost")
       else inl (MkIOError "ENOENT");
     toUpperCase_unicode := fun s => s;
     toUpperCase_unicode_truthy :=
       ltac:(intros [|c s] H; [discriminate H | reflexivity]);
     toUpperCase_unicode_stable :=
       ltac:(intros s H; cbv beta; rewrite H; reflexivity) |}.

(** A transport on which the timer of every request fires. *)
Definition timing_out : nat -> TransportCall -> Event := fun _ _ => EvTimeout.

(** The options [{ redirect: mode }] and [{ timeout: t }]. *)
Definition redirect_options (mode : string) : Init.t :=
  {| Init.method := None; Init.body := None;
     Init.headers := None; Init.redirect := Some mode; Init.follow := None;
     Init.compress := None; Init.counter := None; Init.agent := None;
     Init.timeout := None; Init.size := None |}.

Definition timeout_options (t : Z) : Init.t :=
  {| Init.method := None; Init.body := None;
     Init.headers := None; Init.redirect := None; Init.follow := None;
     Init.compress := None; Init.counter := None; Init.agent := None;
     Init.timeout := Some t; Init.size := None |}.

(** ** Strings and headers *)

Lemma upper_char_idemp c : JS.upper_char (JS.upper_char c) = JS.upper_char c.
Proof. destruct c as [[] [] [] [] [] [] [] []]; reflexivity. Qed.

Lemma toUpperCase_idemp s : JS.toUpperCase (JS.toUpperCase s) = JS.toUpperCase s.
Proof.
  induction s as [|c s IH]; simpl; [reflexivity|].
  now rewrite upper_char_idemp, IH.
Qed.

Lemma toUpperCase_truthy s : JS.truthy (JS.toUpperCase s) = JS.truthy s.
Proof. now destruct s. Qed.

Lemma upper_char_ascii c :
  (N_of_ascii (JS.upper_char c) <? 128)%N = (N_of_ascii c <? 128)%N.
Proof. destruct c as [[] [] [] [] [] [] [] []]; reflexivity. Qed.

Lemma ascii_only_toUpperCase s :
  JS.ascii_only (JS.toUpperCase s) = JS.ascii_only s.
Proof.
  induction s as [|c s IH]; simpl; [reflexivity|].
  now rewrite upper_char_ascii, IH.
Qed.

(** On a text of ASCII characters the method is upper-cased letter by
    letter, on every platform. *)
Example String_toUpperCase_get {env : Env} :
  String_toUpperCase "get" = "GET" /\ String_toUpperCase "Head" = "HEAD".
Proof. split; reflexivity. Qed.

(** On a text of ASCII characters the method is upper-cased letter by
    letter. *)
Lemma String_toUpperCase_ascii {env : Env} s :
  JS.ascii_only s = true -> String_toUpperCase s = JS.toUpperCase s.
Proof. intros H. unfold String_toUpperCase. now rewrite H. Qed.

Lemma String_toUpperCase_idemp {env : Env} s :
  String_toUpperCase (String_toUpperCase s) = String_toUpperCase s.
Proof.
  unfold String_toUpperCase at 2 3. destruct (JS.ascii_only s) eqn:Ha.
  - unfold String_toUpperCase.
    now rewrite ascii_only_toUpperCase, Ha, toUpperCase_idemp.
  - unfold String_toUpperCase. now apply toUpperCase_unicode_stable.
Qed.

Lemma String_toUpperCase_truthy {env : Env} s :
  JS.truthy (String_toUpperCase s) = JS.truthy s.
Proof.
  unfold String_toUpperCase. destruct (JS.ascii_only s) eqn:Ha.
  - apply toUpperCase_truthy.
  - rewrite toUpperCase_unicode_truthy by exact Ha.
    destruct s; [discriminate Ha | reflexivity].
Qed.

Lemma or_str_truthy a b : JS.truthy b = true -> JS.truthy (JS.or_str a b) = true.
Proof.
  intros Hb. unfold JS.or_str. destruct a as [s|]; [|exact Hb].
  destruct (JS.truthy s) eqn:Hs; [exact Hs | exact Hb].
Qed.

Lemma or_str_Some_truthy s b : JS.truthy s = true -> JS.or_str (Some s) b = s.
Proof. intros Hs. unfold JS.or_str. now rewrite Hs. Qed.

(** A number that is zero is falsy, so [n || x || 0] with [n = 0] is [x],
    whatever the number [x]. *)
Lemma or_num_zero_inherits (x : Z) : JS.or_num (Some 0) (JS.or_num (Some x) 0) = x.
Proof.
  unfold JS.or_num. simpl. destruct (Z.eqb_spec x 0); congruence.
Qed.

Lemma or_num_Some (c : Z) : JS.or_num (Some c) 0 = c.
Proof.
  unfold JS.or_num. destruct (Z.eqb_spec c 0); congruence.
Qed.

(** The increment at the edges of the exact range: 2^53 + 1 is no double
    and rounds back to 2^53, and 2^53 + 3 rounds up to 2^53 + 4. *)
Example increment_at_the_edges :
  JS.increment 0 = 1
  /\ JS.increment (2 ^ 53 - 1) = 2 ^ 53
  /\ JS.increment (2 ^ 53) = 2 ^ 53
  /\ JS.increment (2 ^ 53 + 2) = 2 ^ 53 + 4
  /\ JS.increment (- 2 ^ 53) = - 2 ^ 53 + 1
  /\ JS.increment (- 2 ^ 53 - 2) = - 2 ^ 53.
Proof. repeat split; reflexivity. Qed.

(** The increment is exact from -2^53 up to 2^53 - 1. *)
Lemma increment_exact (n : Z) :
  - 2 ^ 53 <= n < 2 ^ 53 -> JS.increment n = n + 1.
Proof.
  intros [Hl Hu]. unfold JS.increment.
  destruct (Z.leb_spec (- 2 ^ 53) n); [|lia].
  destruct (Z.ltb_spec n (2 ^ 53)); [reflexivity | lia].
Qed.

Lemma string_of_N_truthy n : JS.truthy (JS.string_of_N n) = true.
Proof.
  unfold JS.string_of_N, NilZero.string_of_uint.
  destruct (N.to_uint n); reflexivity.
Qed.

Lemma has_true name (h : Headers.t) :
  Headers.has name h = true <-> is_Some (h !! Headers.sanitizeName name).
Proof. unfold Headers.has. apply bool_decide_eq_true. Qed.

Lemma has_false name (h : Headers.t) :
  Headers.has name h = false <-> h !! Headers.sanitizeName name = None.
Proof.
  unfold Headers.has. rewrite bool_decide_eq_false.
  rewrite eq_None_not_Some. reflexivity.
Qed.

Lemma lookup_set name value (h : Headers.t) k :
  Headers.set name value h !! k =
  if decide (Headers.sanitizeName name = k) then Some [value] else h !! k.
Proof. unfold Headers.set. apply lookup_insert. Qed.

Lemma lookup_set_eq name value (h : Headers.t) :
  Headers.set name value h !! Headers.sanitizeName name = Some [value].
Proof. rewrite lookup_set. now rewrite decide_True. Qed.

Lemma lookup_set_ne name value (h : Headers.t) k :
  Headers.sanitizeName name <> k -> Headers.set name value h !! k = h !! k.
Proof. intros Hne. rewrite lookup_set. now rewrite decide_False. Qed.

Lemma lookup_set_when_ne (c : bool) name value (h : Headers.t) k :
  Headers.sanitizeName name <> k ->
  (if c then Headers.set name value h else h) !! k = h !! k.
Proof. intros Hne. destruct c; [now apply lookup_set_ne | reflexivity]. Qed.

Lemma lookup_set_unless_ne (c : bool) name value (h : Headers.t) k :
  Headers.sanitizeName name <> k ->
  (if c then h else Headers.set name value h) !! k = h !! k.
Proof. intros Hne. destruct c; [reflexivity | now apply lookup_set_ne]. Qed.

(** A default is applied only to an absent header: a header that is
    present keeps its values. *)
Lemma lookup_default_present name value (h : Headers.t) :
  is_Some (h !! Headers.sanitizeName name) ->
  (if Headers.has name h then h else Headers.set name value h) = h.
Proof. intros Hs. apply has_true in Hs. now rewrite Hs. Qed.

Section Builder.

Context {env : Env}.

(** The headers of the options that the builder produces, step by step. *)
Lemma getNodeRequestOptions_headers request options :
  getNodeRequestOptions request = inr options ->
  exists h1 h2 h3 h4 : Headers.t,
    h1 = (if Headers.has "Accept" (Request.headers request)
          then Request.headers request
          else Headers.set "Accept" "*/*" (Request.headers request)) /\
    h2 = match contentLengthValue request with
         | Some v => Headers.set "Content-Length" v h1
         | None => h1
         end /\
    h3 = (if Headers.has "User-Agent" h2 then h2
          else Headers.set "User-Agent"
                 "node-fetch/1.0 (+https://github.com/bitinn/node-fetch)" h2) /\
    h4 = (if Request.compress request
          then Headers.set "Accept-Encoding" "gzip,deflate" h3 else h3) /\
    o_headers options =
      (if negb (Headers.has "Connection" h4)
          && negb (bool_decide (is_Some (Request.agent request)))
       then Headers.set "Connection" "close" h4 else h4) /\
    o_method options = Request.method request.
Proof.
  unfold getNodeRequestOptions. intros H.
  destruct (missing _ || missing _); [discriminate|].
  destruct (negb (is_http_protocol _)); [discriminate|].
  injection H as <-. simpl.
  eexists _, _, _, _. repeat split; try reflexivity.
  f_equal. f_equal. f_equal.
  unfold Headers.copy.
  destruct (contentLengthValue request) as [v|] eqn:Hv; [|reflexivity].
  assert (JS.truthy v = true) as ->; [|reflexivity].
  unfold contentLengthValue in Hv.
  destruct (Request.body request) as [b|].
  - destruct (getTotalBytes b).
    + injection Hv as <-. apply string_of_N_truthy.
    + rewrite andb_false_l in Hv. discriminate.
  - destruct (_ && _); [|discriminate]. now injection Hv as <-.
Qed.

End Builder.

(** ** The transport-options builder *)

Section BuilderProperties.

Context {env : Env}.

(** C9.  When [compress] is true the options carry
    [Accept-Encoding: gzip,deflate] and nothing else under that name,
    whatever the descriptor's headers held (there is no test of absence in
    that step); a header [Accept], [User-Agent] or [Connection] that the
    descriptor already has is passed on unchanged, as those steps apply
    only to an absent header. *)
Theorem accept_encoding_is_overwritten request options :
  getNodeRequestOptions request = inr options ->
  (Request.compress request = true ->
   o_headers options !! "accept-encoding" = Some ["gzip,deflate"]) /\
  (forall name,
     name = "Accept" \/ name = "User-Agent" \/ name = "Connection" ->
     is_Some (Request.headers request !! Headers.sanitizeName name) ->
     o_headers options !! Headers.sanitizeName name
     = Request.headers request !! Headers.sanitizeName name).
Proof.
  intros H.
  destruct (getNodeRequestOptions_headers _ _ H)
    as (h1 & h2 & h3 & h4 & E1 & E2 & E3 & E4 & Eo & _).
  split.
  - intros Hc. rewrite Eo, lookup_set_when_ne by discriminate.
    rewrite E4, Hc. apply (lookup_set_eq "Accept-Encoding").
  - intros name Hname Hpresent.
    assert (Hh1 : h1 !! Headers.sanitizeName name
                  = Request.headers request !! Headers.sanitizeName name).
    { rewrite E1. destruct Hname as [-> | [-> | ->]];
        try (now rewrite lookup_set_unless_ne by discriminate).
      now rewrite lookup_default_present. }
    assert (Hh2 : h2 !! Headers.sanitizeName name = h1 !! Headers.sanitizeName name).
    { rewrite E2. destruct (contentLengthValue request); [|reflexivity].
      apply lookup_set_ne. destruct Hname as [-> | [-> | ->]]; discriminate. }
    assert (Hh3 : h3 !! Headers.sanitizeName name = h2 !! Headers.sanitizeName name).
    { rewrite E3. destruct Hname as [-> | [-> | ->]];
        try (now rewrite lookup_set_unless_ne by discriminate).
      rewrite lookup_default_present; [reflexivity|].
      now rewrite Hh2, Hh1. }
    assert (Hh4 : h4 !! Headers.sanitizeName name = h3 !! Headers.sanitizeName name).
    { rewrite E4. apply lookup_set_when_ne.
      destruct Hname as [-> | [-> | ->]]; discriminate. }
    rewrite Eo, <- Hh1, <- Hh2, <- Hh3, <- Hh4.
    destruct Hname as [-> | [-> | ->]];
      try (now rewrite lookup_set_when_ne by discriminate).
    assert (Headers.has "Connection" h4 = true) as ->; [|reflexivity].
    apply has_true. now rewrite Hh4, Hh3, Hh2, Hh1.
Qed.

(** C7, as amended.  [Content-Length] of the options is ["0"] for a POST or
    PUT without a body, and the decimal byte size of the body when the
    body is present and its size is a number.  In every other case the
    builder does not touch the header: the options carry the values that
    the descriptor's own headers have under that name, and none when
    there are none. *)
Theorem content_length_of_options request options :
  getNodeRequestOptions request = inr options ->
  (Request.body request = None ->
   Request.method request = "POST" \/ Request.method request = "PUT" ->
   o_headers options !! "content-length" = Some ["0"]) /\
  (forall b n,
     Request.body request = Some b -> getTotalBytes b = Some n ->
     o_headers options !! "content-length" = Some [JS.string_of_N n]) /\
  ((Request.body request = None
    /\ is_POST_or_PUT (Request.method request) = false)
   \/ (exists b, Request.body request = Some b /\ getTotalBytes b = None) ->
   o_headers options !! "content-length"
   = Request.headers request !! "content-length").
Proof.
  intros H.
  destruct (getNodeRequestOptions_headers _ _ H)
    as (h1 & h2 & h3 & h4 & E1 & E2 & E3 & E4 & Eo & _).
  assert (Hout : o_headers options !! "content-length" = h2 !! "content-length").
  { rewrite Eo, lookup_set_when_ne by discriminate.
    rewrite E4, lookup_set_when_ne by discriminate.
    rewrite E3. now rewrite lookup_set_unless_ne by discriminate. }
  assert (Hin : h1 !! "content-length"
                = Request.headers request !! "content-length").
  { rewrite E1. now rewrite lookup_set_unless_ne by discriminate. }
  rewrite Hout, E2. unfold contentLengthValue. repeat split.
  - intros -> Hm. simpl.
    assert (is_POST_or_PUT (Request.method request) = true) as ->.
    { unfold is_POST_or_PUT. destruct Hm as [-> | ->]; reflexivity. }
    apply (lookup_set_eq "Content-Length").
  - intros b n -> ->. apply (lookup_set_eq "Content-Length").
  - intros [[-> ->] | (b & -> & ->)]; simpl; exact Hin.
Qed.

End BuilderProperties.

Lemma accept_encoding_is_overwritten_witness :
  exists options,
    getNodeRequestOptions (env := simple_env silent) request_accepting_br
    = inr options
    /\ Request.headers request_accepting_br !! "accept-encoding" = Some ["br"]
    /\ o_headers options !! "accept-encoding" = Some ["gzip,deflate"].
Proof.
  eexists. split; [reflexivity|]. split; [reflexivity|].
  apply (accept_encoding_is_overwritten (env := simple_env silent)
           request_accepting_br _ eq_refl).
  reflexivity.
Defined.

Lemma content_length_of_options_witness :
  exists options,
    getNodeRequestOptions (env := simple_env silent) empty_post = inr options
    /\ o_headers options !! "content-length" = Some ["0"].
Proof.
  eexists. split; [reflexivity|].
  apply (content_length_of_options (env := simple_env silent)
           empty_post _ eq_refl).
  - reflexivity.
  - left. reflexivity.
Defined.

(** Two of the other cases: a body whose size is not determinable, and a
    GET request without a body.  The options built for them do have a
    [Content-Length], the one of the caller. *)
Lemma content_length_not_absent_counterexample :
  (Request.body stream_upload = Some (BStream 0)
   /\ getTotalBytes (Env := simple_env silent) (BStream 0) = None
   /\ exists options,
        getNodeRequestOptions (env := simple_env silent) stream_upload
        = inr options
        /\ o_headers options !! "content-length" = Some ["5"])
  /\ (Request.body request_with_length = None
      /\ Request.method request_with_length = "GET"
      /\ exists options,
           getNodeRequestOptions (env := simple_env silent) request_with_length
           = inr options
           /\ o_headers options !! "content-length" = Some ["5"]).
Proof.
  split; (split; [reflexivity|]); (split; [reflexivity|]);
    eexists; split; reflexivity.
Qed.

(** ** The constructor *)

Section ConstructorProperties.

Context {env : Env}.

(** The constructor throws exactly when a body is supplied or inherited
    and the method, as written by the caller, is [GET] or [HEAD]. *)
Lemma Request_constructor_throws input init :
  (exists e, Request_constructor input init = inl e) <->
  (is_Some (Init.body init) \/ inherits_body input = true)
  /\ (requested_method input init = "GET"
      \/ requested_method input init = "HEAD").
Proof.
  unfold Request_constructor. fold (requested_method input init).
  unfold is_GET_or_HEAD.
  destruct (bool_decide_reflect (is_Some (Init.body init))) as [Hb|Hb];
    destruct (inherits_body input) eqn:Hi;
    destruct (String.eqb_spec (requested_method input init) "GET") as [Hg|Hg];
    destruct (String.eqb_spec (requested_method input init) "HEAD") as [Hh|Hh];
    simpl; split;
    try (intros [e He]; discriminate He);
    try (intros _; eexists; reflexivity);
    try (intros _; now auto);
    intros [[?|?] [?|?]]; congruence.
Qed.

(** With the method left to its default, or written in upper case, a body
    makes the constructor throw. *)
Lemma Request_constructor_checks_uppercase s init b method :
  Init.body init = Some b ->
  Init.method init = None \/ Init.method init = Some method ->
  method = "GET" \/ method = "HEAD" ->
  exists e, Request_constructor (InString s) init = inl e.
Proof.
  intros Hb Hm Hmeth. apply Request_constructor_throws. split.
  - left. rewrite Hb. eauto.
  - unfold requested_method.
    destruct Hm as [-> | ->]; [left; reflexivity|].
    destruct Hmeth as [-> | ->]; [left | right]; reflexivity.
Qed.

(** The fields of a descriptor that the constructor returns. *)
Lemma Request_constructor_fields input init request :
  Request_constructor input init = inr request ->
  Request.method request = String_toUpperCase (requested_method input init)
  /\ Request.body request
     = match Init.body init with
       | Some b => Some b
       | None => match input with
                 | InRequest r => clone <$> Request.body r
                 | _ => None
                 end
       end
  /\ Request.counter request
     = JS.or_num (Init.counter init)
         (JS.or_num (Request.counter <$> prior input) 0)
  /\ Request.timeout request
     = JS.or_num (Init.timeout init)
         (JS.or_num (Request.timeout <$> prior input) 0)
  /\ Request.size request
     = JS.or_num (Init.size init)
         (JS.or_num (Request.size <$> prior input) 0)
  /\ Request.follow request
     = JS.or_undef (Init.follow init)
         (JS.or_undef (Request.follow <$> prior input) 20)
  /\ Request.redirect request
     = JS.or_str (Init.redirect init)
         (JS.or_str (Request.redirect <$> prior input) "follow")
  /\ (forall s, input = InString s -> Request.parsedURL request = parse_url s).
Proof.
  unfold Request_constructor. fold (requested_method input init).
  destruct (_ && _); [discriminate|].
  intros H. injection H as <-. simpl. repeat split; try reflexivity.
  now intros s ->.
Qed.

(** Any other spelling of GET or HEAD escapes the test: the constructor
    returns a descriptor whose method, once upper-cased, is [GET] or
    [HEAD], with the body. *)
Lemma other_spelling_keeps_body u m b :
  m <> "GET" -> m <> "HEAD" ->
  String_toUpperCase m = "GET" \/ String_toUpperCase m = "HEAD" ->
  exists request,
    Request_constructor (InString u) (method_and_body m b) = inr request
    /\ is_GET_or_HEAD (Request.method request) = true
    /\ Request.body request = Some b.
Proof.
  intros Hg Hh Hup.
  assert (Hm : requested_method (InString u) (method_and_body m b) = m).
  { unfold requested_method. simpl. apply or_str_Some_truthy.
    destruct m; [destruct Hup; discriminate | reflexivity]. }
  destruct (Request_constructor (InString u) (method_and_body m b))
    as [e | request] eqn:Hreq.
  - assert (Hthrows : exists e, Request_constructor (InString u)
                        (method_and_body m b) = inl e) by eauto.
    apply Request_constructor_throws in Hthrows.
    rewrite Hm in Hthrows. destruct Hthrows as [_ [?|?]]; congruence.
  - exists request. split; [reflexivity|].
    destruct (Request_constructor_fields _ _ _ Hreq) as (Hmeth & Hbody & _).
    rewrite Hmeth, Hbody, Hm. split; [|reflexivity].
    unfold is_GET_or_HEAD. destruct Hup as [-> | ->]; reflexivity.
Qed.

(** C4, at the failing input.  With the method written in lower case the
    test of the constructor, which compares the method before it is
    upper-cased, lets a body through: the descriptor that comes back has
    method [GET] and a body. *)
Theorem lowercase_get_keeps_body (u : string) :
  exists request,
    Request_constructor (InString u) lowercase_get_with_body = inr request
    /\ Request.method request = "GET"
    /\ Request.body request = Some (BString "x").
Proof. eexists. split; [reflexivity|]. split; reflexivity. Qed.

(** C10.  For a descriptor built from a prior one, an option [counter: 0]
    leaves the counter of the prior descriptor in place, and so do
    [timeout: 0] and [size: 0] for their fields. *)
Theorem zero_option_does_not_override prior_ init request :
  Request_constructor (InRequest prior_) init = inr request ->
  (Init.counter init = Some 0 ->
   Request.counter request = Request.counter prior_) /\
  (Init.timeout init = Some 0 ->
   Request.timeout request = Request.timeout prior_) /\
  (Init.size init = Some 0 ->
   Request.size request = Request.size prior_).
Proof.
  intros H.
  destruct (Request_constructor_fields _ _ _ H)
    as (_ & _ & Hc & Ht & Hs & _).
  rewrite Hc, Ht, Hs. simpl.
  repeat split; intros ->; apply or_num_zero_inherits.
Qed.

End ConstructorProperties.

Lemma zero_option_does_not_override_witness :
  exists request,
    Request_constructor (env := simple_env silent)
      (InRequest redirected_thrice) zero_options = inr request
    /\ Request.counter request = 3
    /\ Request.timeout request = 500
    /\ Request.size request = 1024.
Proof.
  eexists. split; [reflexivity|].
  destruct (zero_option_does_not_override (env := simple_env silent)
              redirected_thrice zero_options _ eq_refl) as (Hc & Ht & Hs).
  split; [exact (Hc eq_refl)|]. split; [exact (Ht eq_refl) | exact (Hs eq_refl)].
Defined.

(** ** Header normalisation *)

Lemma lookup_append_ne name value (h : Headers.t) k :
  Headers.sanitizeName name <> k ->
  Headers.append name value h !! k = h !! k.
Proof. intros Hne. unfold Headers.append. now rewrite lookup_insert_ne. Qed.

Lemma lookup_append_header_ne (h : Headers.t) kv k :
  Headers.sanitizeName kv.1 <> k -> append_header h kv !! k = h !! k.
Proof.
  intros Hne. unfold append_header. destruct kv.2 as [v|vs].
  - now apply lookup_append_ne.
  - revert h. induction vs as [|v vs IH]; intros h; simpl; [reflexivity|].
    rewrite IH. now apply lookup_append_ne.
Qed.

Lemma lookup_normalize_from (h : Headers.t) o k :
  Forall (fun kv : string * HeaderValue => Headers.sanitizeName kv.1 <> k) o ->
  foldl append_header h o !! k = h !! k.
Proof.
  intros Hall. revert h.
  induction Hall as [|kv o Hkv _ IH]; intros h; simpl; [reflexivity|].
  rewrite IH. now apply lookup_append_header_ne.
Qed.

(** A header that the response lacks is absent after normalisation. *)
Lemma get_normalize_lacking name res :
  lacks_header name res ->
  Headers.get name (normalize_headers (res_headers res)) = None.
Proof.
  intros Hl. unfold Headers.get, normalize_headers.
  rewrite lookup_normalize_from by exact Hl.
  unfold Headers.empty. now rewrite lookup_empty.
Qed.

Section HandlerProperties.

Context {env : Env}.

(** Making [location] absolute leaves the other headers alone. *)
Lemma get_response_headers name request res :
  Headers.sanitizeName name <> "location" ->
  Headers.get name (response_headers request res)
  = Headers.get name (normalize_headers (res_headers res)).
Proof.
  intros Hne. unfold response_headers, Headers.get.
  destruct (_ && _); [|reflexivity].
  rewrite lookup_set_ne; [reflexivity|]. intros Heq. apply Hne. now rewrite <- Heq.
Qed.

Lemma on_response_terminal request res :
  is_terminal request res -> on_response request res = terminal request res.
Proof.
  intros [Hs | Hm]; unfold on_response.
  - now rewrite Hs.
  - rewrite Hm. simpl. now rewrite andb_false_r.
Qed.

(** C5.  A terminal response goes to the caller with the pass-through of
    the raw stream as its body, no transform added, as soon as [compress]
    is false, or the method is HEAD, or the response has no
    [Content-Encoding] header, or the status is 204 or 304: the promise
    is resolved with the response made of that body and of the URL of
    the request, the status and status text of the answer, its headers,
    and the size limit and timeout of the request. *)
Theorem excluded_response_keeps_raw_body request res :
  is_terminal request res ->
  Request.compress request = false
  \/ Request.method request = "HEAD"
  \/ lacks_header "Content-Encoding" res
  \/ statusCode res = 204
  \/ statusCode res = 304 ->
  on_response request res
  = Settle
      (Resolved
           {| resp_body := PassThrough (chunks res);
              resp_options :=
                Some {| ri_url := url request;
                        ri_status := statusCode res;
                        ri_statusText := statusMessage res;
                        ri_headers := response_headers request res;
                        ri_size := SizeNumber (Request.size request);
                        ri_timeout := Some (Request.timeout request) |} |}).
Proof.
  intros Ht Hex. rewrite on_response_terminal by exact Ht.
  change (Settle (Resolved ?r))
    with (respond request res (PassThrough (chunks res))).
  unfold terminal.
  destruct Hex as [Hc | [Hm | [Hl | [Hs | Hs]]]].
  - now rewrite Hc.
  - rewrite Hm. simpl. now rewrite orb_true_r.
  - rewrite get_response_headers by discriminate.
    rewrite (get_normalize_lacking _ _ Hl).
    rewrite bool_decide_eq_true_2 by reflexivity.
    now rewrite !orb_true_r.
  - rewrite Hs. simpl. now rewrite !orb_true_r.
  - rewrite Hs. simpl. now rewrite !orb_true_r.
Qed.

(** C6.  For a terminal response that is not excluded from decoding and
    whose [Content-Encoding] is [deflate] or [x-deflate], the first byte
    [b] of the raw stream chooses the transform: the promise is resolved
    with a response whose body is the raw stream piped into the
    zlib-wrapped inflate when the low nibble of [b] is 8, and into the raw
    inflate otherwise. *)
Theorem deflate_decoder_chosen_by_first_byte request res b chunk rest :
  is_terminal request res ->
  Request.compress request = true ->
  Request.method request <> "HEAD" ->
  statusCode res <> 204 ->
  statusCode res <> 304 ->
  Headers.get "Content-Encoding" (normalize_headers (res_headers res))
  = Some "deflate"
  \/ Headers.get "Content-Encoding" (normalize_headers (res_headers res))
     = Some "x-deflate" ->
  chunks res = (b :: chunk) :: rest ->
  on_response request res
  = Settle
      (Resolved
           {| resp_body :=
                if (low_nibble b =? 8)%Z
                then Inflate (PassThrough (chunks res))
                else InflateRaw (PassThrough (chunks res));
              resp_options :=
                Some {| ri_url := url request;
                        ri_status := statusCode res;
                        ri_statusText := statusMessage res;
                        ri_headers := response_headers request res;
                        ri_size := SizeNumber (Request.size request);
                        ri_timeout := Some (Request.timeout request) |} |}).
Proof.
  intros Ht Hc Hm H204 H304 Hce Hchunks.
  rewrite on_response_terminal by exact Ht.
  change (Settle (Resolved ?r))
    with (respond request res
            (if (low_nibble b =? 8)%Z
             then Inflate (PassThrough (chunks res))
             else InflateRaw (PassThrough (chunks res)))).
  unfold terminal.
  rewrite get_response_headers by discriminate.
  rewrite Hc. simpl negb.
  assert (String.eqb (Request.method request) "HEAD" = false) as ->
    by now apply String.eqb_neq.
  assert ((statusCode res =? 204)%Z = false) as -> by now apply Z.eqb_neq.
  assert ((statusCode res =? 304)%Z = false) as -> by now apply Z.eqb_neq.
  assert (Hhead : zlib_header (b :: chunk) = (low_nibble b =? 8)%Z)
    by reflexivity.
  destruct Hce as [-> | ->]; simpl;
    destruct (chunks res) as [|c cs]; try discriminate;
    injection Hchunks as -> ->; rewrite Hhead;
    now destruct (low_nibble b =? 8)%Z.
Qed.

End HandlerProperties.

Lemma excluded_response_keeps_raw_body_witness :
  exists options,
    on_response (env := simple_env silent) head_request gzip_response
    = Settle (Resolved {| resp_body := PassThrough [[x1f; x8b; x08]];
                          resp_options := Some options |})
    /\ ri_status options = 200.
Proof.
  eexists. split.
  - apply (excluded_response_keeps_raw_body (env := simple_env silent)
             head_request gzip_response).
    + left. reflexivity.
    + right. left. reflexivity.
  - reflexivity.
Defined.

(** The same response to a GET request is piped into the gunzip
    transform. *)
Example gzip_response_to_get_is_decoded :
  exists options,
    on_response (env := simple_env silent) get_request gzip_response
    = Settle (Resolved
                {| resp_body :=
                     Gunzip SyncFlush (PassThrough [[x1f; x8b; x08]]);
                   resp_options := Some options |}).
Proof. eexists. reflexivity. Qed.

Lemma deflate_decoder_chosen_by_first_byte_witness :
  exists options,
    on_response (env := simple_env silent) get_request
      (deflate_response [x78; x9c; x4b])
    = Settle (Resolved
                {| resp_body := Inflate (PassThrough [[x78; x9c; x4b]]);
                   resp_options := Some options |}).
Proof.
  eexists.
  apply (deflate_decoder_chosen_by_first_byte (env := simple_env silent)
           get_request (deflate_response [x78; x9c; x4b]) x78 [x9c; x4b] []).
  - left. reflexivity.
  - reflexivity.
  - discriminate.
  - discriminate.
  - discriminate.
  - left. reflexivity.
  - reflexivity.
Defined.

(** A stream that starts with [0x4b] has no zlib header. *)
Example headerless_deflate_is_inflated_raw :
  exists options,
    on_response (env := simple_env silent) get_request
      (deflate_response [x4b])
    = Settle (Resolved {| resp_body := InflateRaw (PassThrough [[x4b]]);
                          resp_options := Some options |}).
Proof. eexists. reflexivity. Qed.

(** With an empty stream no chunk ever arrives and the promise stays
    pending. *)
Example empty_deflate_stream_never_settles :
  on_response (env := simple_env silent) get_request
    (response_of 200 [("content-encoding", Single "deflate")] [])
  = Settle Pending.
Proof. reflexivity. Qed.

(** ** The redirect block *)

Lemma rewrites_to_GET_spec status method :
  rewrites_to_GET status method = true <-> downgrades status method.
Proof.
  unfold rewrites_to_GET, downgrades.
  rewrite orb_true_iff, andb_true_iff, orb_true_iff.
  rewrite !Z.eqb_eq, String.eqb_eq. reflexivity.
Qed.

Lemma rewrites_to_GET_false status method :
  rewrites_to_GET status method = false <-> ~ downgrades status method.
Proof.
  rewrite <- rewrites_to_GET_spec. now destruct (rewrites_to_GET status method).
Qed.

Section RedirectProperties.

Context {env : Env}.

(** The redirect block, branch by branch. *)
Lemma on_response_redirect request res :
  isRedirect (statusCode res) = true ->
  Request.redirect request <> "manual" ->
  on_response request res =
  if String.eqb (Request.redirect request) "error"
  then reject ("redirect mode is set to error: " +:+ url request) no_redirect
  else if (Request.counter request >=? Request.follow request)%Z
  then reject ("maximum redirect reached at: " +:+ url request) max_redirect
  else
    match header_prop "location" (res_headers res) with
    | Some location =>
        if hv_falsy location
        then reject ("redirect location header missing at: " +:+ url request)
               invalid_redirect
        else Follow (resolve_url (url request) location)
               (redirected (statusCode res) request)
    | None =>
        reject ("redirect location header missing at: " +:+ url request)
          invalid_redirect
    end.
Proof.
  intros Hs Hm. unfold on_response. rewrite Hs.
  apply String.eqb_neq in Hm. rewrite Hm. simpl.
  destruct (String.eqb _ "error"); [reflexivity|].
  destruct (_ >=? _)%Z; [reflexivity|].
  destruct (header_prop _ _) as [location|]; [|reflexivity].
  destruct (hv_falsy location); [reflexivity|].
  unfold redirected, url.
  destruct (rewrites_to_GET _ _); reflexivity.
Qed.

(** What a followed redirect is. *)
Lemma on_response_Follow request res next_url request' :
  on_response request res = Follow next_url request' ->
  isRedirect (statusCode res) = true
  /\ Request.redirect request <> "manual"
  /\ Request.redirect request <> "error"
  /\ Request.counter request < Request.follow request
  /\ request' = redirected (statusCode res) request.
Proof.
  intros H.
  destruct (isRedirect (statusCode res)) eqn:Hs.
  2:{ rewrite on_response_terminal in H by now left.
      unfold terminal, respond in H.
      repeat match type of H with
             | (if ?c then _ else _) = _ => destruct c
             | match ?c with _ => _ end = _ => destruct c
             end; discriminate. }
  destruct (String.eqb_spec (Request.redirect request) "manual") as [Hm|Hm].
  { rewrite on_response_terminal in H by now right.
    unfold terminal, respond in H.
    repeat match type of H with
           | (if ?c then _ else _) = _ => destruct c
           | match ?c with _ => _ end = _ => destruct c
           end; discriminate. }
  rewrite on_response_redirect in H by assumption.
  destruct (String.eqb_spec (Request.redirect request) "error") as [He|He];
    [discriminate|].
  destruct (Z.geb_spec (Request.counter request) (Request.follow request));
    [discriminate|].
  destruct (header_prop _ _) as [location|]; [|discriminate].
  destruct (hv_falsy location); [discriminate|].
  injection H as _ <-. repeat split; try assumption; lia.
Qed.

(** C2, as amended.  For a redirect status outside manual mode the handler
    decides in this order: mode [error] rejects with [no-redirect],
    whatever the counter and the headers; else a counter that has reached
    [follow] rejects with [max-redirect]; else a [Location] header that is
    absent, or present with an empty value, rejects with
    [invalid-redirect]; else the redirect is followed. *)
Theorem redirect_decision_order request res :
  isRedirect (statusCode res) = true ->
  Request.redirect request <> "manual" ->
  (Request.redirect request = "error" ->
   on_response request res
   = reject ("redirect mode is set to error: " +:+ url request) no_redirect)
  /\ (Request.redirect request <> "error" ->
      Request.counter request >= Request.follow request ->
      on_response request res
      = reject ("maximum redirect reached at: " +:+ url request) max_redirect)
  /\ (Request.redirect request <> "error" ->
      Request.counter request < Request.follow request ->
      header_prop "location" (res_headers res) = None
      \/ header_prop "location" (res_headers res) = Some (Single "") ->
      on_response request res
      = reject ("redirect location header missing at: " +:+ url request)
          invalid_redirect)
  /\ (Request.redirect request <> "error" ->
      Request.counter request < Request.follow request ->
      forall location,
        header_prop "location" (res_headers res) = Some location ->
        location <> Single "" ->
        on_response request res
        = Follow (resolve_url (url request) location)
            (redirected (statusCode res) request)).
Proof.
  intros Hs Hm. rewrite on_response_redirect by assumption.
  split; [|split; [|split]].
  - intros ->. reflexivity.
  - intros He Hc. apply String.eqb_neq in He. rewrite He.
    destruct (Z.geb_spec (Request.counter request) (Request.follow request));
      [reflexivity | lia].
  - intros He Hc Hl. apply String.eqb_neq in He. rewrite He.
    destruct (Z.geb_spec (Request.counter request) (Request.follow request));
      [lia|].
    destruct Hl as [-> | ->]; reflexivity.
  - intros He Hc location -> Hl. apply String.eqb_neq in He. rewrite He.
    destruct (Z.geb_spec (Request.counter request) (Request.follow request));
      [lia|].
    destruct location as [[|c s]|vs]; [congruence | reflexivity | reflexivity].
Qed.

End RedirectProperties.

Lemma redirect_decision_order_witness :
  on_response (env := simple_env silent) get_request (redirect_response 302)
  = Follow "http://example.com/next"
      (redirected 302 get_request).
Proof.
  destruct (redirect_decision_order (env := simple_env silent)
              get_request (redirect_response 302) eq_refl)
    as (_ & _ & _ & Hfollow); [discriminate|].
  apply (Hfollow ltac:(discriminate) ltac:(reflexivity)
           (Single "http://example.com/next") eq_refl).
  discriminate.
Defined.

(** A 302 response with [Location] present but empty, to a request in
    follow mode whose counter is below [follow]: the header is present,
    and the handler rejects with [invalid-redirect] instead of following. *)
Lemma empty_location_counterexample :
  isRedirect (statusCode empty_location_response) = true
  /\ Request.redirect get_request = "follow"
  /\ Request.counter get_request < Request.follow get_request
  /\ header_prop "location" (res_headers empty_location_response)
     = Some (Single "")
  /\ on_response (env := simple_env silent) get_request empty_location_response
     = reject "redirect location header missing at: http://example.com/"
         invalid_redirect.
Proof. repeat split; reflexivity. Qed.

(** ** The next hop *)

Section NextHop.

Context {env : Env}.

(** The method of a descriptor is in upper case and not empty. *)
Lemma constructed_method input init request :
  Request_constructor input init = inr request ->
  String_toUpperCase (Request.method request) = Request.method request
  /\ JS.truthy (Request.method request) = true.
Proof.
  intros H. destruct (Request_constructor_fields _ _ _ H) as (Hm & _).
  rewrite Hm. split; [apply String_toUpperCase_idemp|].
  rewrite String_toUpperCase_truthy. unfold requested_method.
  apply or_str_truthy, or_str_truthy. reflexivity.
Qed.

(** [Content-Length] of the options, from the value that the builder
    computes. *)
Lemma options_content_length request options :
  getNodeRequestOptions request = inr options ->
  o_headers options !! "content-length"
  = match contentLengthValue request with
    | Some v => Some [v]
    | None => Request.headers request !! "content-length"
    end.
Proof.
  intros H.
  destruct (getNodeRequestOptions_headers _ _ H)
    as (h1 & h2 & h3 & h4 & E1 & E2 & E3 & E4 & Eo & _).
  rewrite Eo, lookup_set_when_ne by discriminate.
  rewrite E4, lookup_set_when_ne by discriminate.
  rewrite E3, lookup_set_unless_ne by discriminate.
  rewrite E2. destruct (contentLengthValue request).
  - apply (lookup_set_eq "Content-Length").
  - rewrite E1. now rewrite lookup_set_unless_ne by discriminate.
Qed.

(** The next hop after a rewrite to GET. *)
Lemma next_hop_rewritten next_url status request :
  rewrites_to_GET status (Request.method request) = true ->
  exists next,
    next_hop next_url (redirected status request) = inr next
    /\ Request.method next = "GET"
    /\ Request.body next = None
    /\ Request.headers next
       = Headers.delete "content-length" (Request.headers request).
Proof.
  intros Hr. unfold next_hop, Request_constructor, redirected.
  rewrite Hr. simpl. eexists. split; [reflexivity|]. simpl.
  repeat split; reflexivity.
Qed.

(** The method that the constructor tests at the next hop is the method
    of the descriptor that is passed on. *)
Lemma requested_method_next_hop next_url request :
  JS.truthy (Request.method request) = true ->
  requested_method (InString next_url) (Request.as_init request)
  = Request.method request.
Proof. intros Hne. unfold requested_method. simpl. now apply or_str_Some_truthy. Qed.

(** The next hop when the method is kept: the descriptor, if the
    constructor returns one, has the method and the body of the request;
    and the constructor does return one when the request respects the
    invariant of descriptors. *)
Lemma next_hop_kept next_url status request :
  String_toUpperCase (Request.method request) = Request.method request ->
  JS.truthy (Request.method request) = true ->
  rewrites_to_GET status (Request.method request) = false ->
  (forall next,
     next_hop next_url (redirected status request) = inr next ->
     Request.method next = Request.method request
     /\ Request.body next = Request.body request)
  /\ (body_allowed request ->
      exists next, next_hop next_url (redirected status request) = inr next).
Proof.
  intros Hup Hne Hr.
  assert (Hm : Request.method (redirected status request)
               = Request.method request).
  { unfold redirected. simpl. now rewrite Hr. }
  assert (Hb : Request.body (redirected status request)
               = Request.body request).
  { unfold redirected. simpl. now rewrite Hr. }
  assert (Hreq : requested_method (InString next_url)
                   (Request.as_init (redirected status request))
                 = Request.method request).
  { rewrite requested_method_next_hop; rewrite Hm; [reflexivity | exact Hne]. }
  split.
  - intros next Hnext.
    destruct (Request_constructor_fields _ _ _ Hnext) as (Hmeth & Hbody & _).
    rewrite Hmeth, Hbody, Hreq, Hup. split; [reflexivity|].
    change (Init.body (Request.as_init (redirected status request)))
      with (Request.body (redirected status request)).
    rewrite Hb. now destruct (Request.body request).
  - intros Hinv. unfold next_hop.
    destruct (Request_constructor (InString next_url)
                (Request.as_init (redirected status request)))
      as [e | next] eqn:Hnext; [|eauto].
    exfalso.
    assert (Hthrows : exists e, Request_constructor (InString next_url)
                        (Request.as_init (redirected status request)) = inl e)
      by eauto.
    apply Request_constructor_throws in Hthrows.
    destruct Hthrows as [[Hbody | Hinh] Hmeth]; [|discriminate].
    rewrite Hreq in Hmeth.
    change (Init.body (Request.as_init (redirected status request)))
      with (Request.body (redirected status request)) in Hbody.
    rewrite Hb in Hbody.
    assert (Hgh : is_GET_or_HEAD (Request.method request) = true).
    { unfold is_GET_or_HEAD. destruct Hmeth as [-> | ->]; reflexivity. }
    rewrite (Hinv Hgh) in Hbody. now destruct Hbody.
Qed.

(** The rule of the redirect block on the descriptors that respect the
    invariant.  Take a descriptor [request] built by the constructor and
    a response that the handler follows.  If the status is 303, or 301 or
    302 with a POST request, the descriptor of the next hop has method
    [GET], no body and no [Content-Length] header, and the options built
    from it have none either.  For every other status and method, the
    descriptor of the next hop has the method and the body of [request];
    it exists whenever [request] has no body with GET or HEAD. *)
Theorem followed_redirect_method_and_body
    input init request res next_url request' :
  Request_constructor input init = inr request ->
  on_response request res = Follow next_url request' ->
  (downgrades (statusCode res) (Request.method request) ->
   exists next,
     next_hop next_url request' = inr next
     /\ Request.method next = "GET"
     /\ Request.body next = None
     /\ Headers.has "Content-Length" (Request.headers next) = false
     /\ forall options,
          getNodeRequestOptions next = inr options ->
          o_headers options !! "content-length" = None)
  /\ (~ downgrades (statusCode res) (Request.method request) ->
      (forall next,
         next_hop next_url request' = inr next ->
         Request.method next = Request.method request
         /\ Request.body next = Request.body request)
      /\ (body_allowed request ->
          exists next, next_hop next_url request' = inr next)).
Proof.
  intros Hbuilt Hfollow.
  destruct (constructed_method _ _ _ Hbuilt) as [Hup Hne].
  destruct (on_response_Follow _ _ _ _ Hfollow) as (_ & _ & _ & _ & ->).
  split.
  - intros Hd. apply rewrites_to_GET_spec in Hd.
    destruct (next_hop_rewritten next_url _ _ Hd)
      as (next & Hnext & Hm & Hb & Hh).
    exists next. repeat split; try assumption.
    + apply has_false. rewrite Hh. apply lookup_delete_eq.
    + intros options Ho. rewrite (options_content_length _ _ Ho).
      unfold contentLengthValue. rewrite Hb, Hm. simpl.
      rewrite Hh. apply lookup_delete_eq.
  - intros Hd. apply rewrites_to_GET_false in Hd.
    now apply next_hop_kept.
Qed.

(** C1, at the failing input.  The descriptor that the constructor
    returns for the options [{ method: 'get', body: 'x' }] has method
    [GET] and a body.  A 307 response with a [Location] is followed, and
    the method is not one that the rule rewrites; but the followed
    redirect has no next-hop request that keeps the method and the body:
    the constructor, which now tests the method in upper case, throws. *)
Theorem get_with_body_has_no_next_hop (u : string) :
  exists request,
    Request_constructor (InString u) lowercase_get_with_body = inr request
    /\ Request.method request = "GET"
    /\ Request.body request = Some (BString "x")
    /\ ~ downgrades 307 (Request.method request)
    /\ on_response request (redirect_response 307)
       = Follow
           (resolve_url (url request) (Single "http://example.com/next"))
           (redirected 307 request)
    /\ next_hop
         (resolve_url (url request) (Single "http://example.com/next"))
         (redirected 307 request)
       = inl (MkTypeError "Request with GET/HEAD method cannot have body").
Proof.
  eexists. split; [reflexivity|].
  split; [reflexivity|]. split; [reflexivity|].
  split.
  - intros [H | [[H | H] _]]; discriminate H.
  - split; reflexivity.
Qed.

End NextHop.


Lemma followed_redirect_method_and_body_witness :
  exists next,
    next_hop (env := simple_env silent) "http://example.com/next"
      (redirected 302 post_request) = inr next
    /\ Request.method next = "GET"
    /\ Request.body next = None
    /\ Headers.has "Content-Length" (Request.headers next) = false.
Proof.
  destruct (followed_redirect_method_and_body (env := simple_env silent)
              (InString "http://example.com/")
              (Request.as_init post_request)
              post_request (redirect_response 302)
              "http://example.com/next" (redirected 302 post_request)
              eq_refl eq_refl) as [Hrewritten _].
  destruct Hrewritten as (next & Hnext & Hm & Hb & Hh & _).
  - right. split; [right|]; reflexivity.
  - exists next. repeat split; assumption.
Defined.

(** A 307 response keeps the method and the body of a POST request. *)
Example temporary_redirect_keeps_post :
  exists next,
    next_hop (env := simple_env silent) "http://example.com/next"
      (redirected 307 post_request) = inr next
    /\ Request.method next = "POST"
    /\ Request.body next = Some (BString "a=1")
    /\ Request.headers next !! "content-length" = Some ["3"].
Proof. eexists. split; [reflexivity|]. repeat split; reflexivity. Qed.

(** ** [data:] URLs *)

Lemma append_cons c s t : String c s +:+ t = String c (s +:+ t).
Proof. reflexivity. Qed.

Lemma append_empty t : EmptyString +:+ t = t.
Proof. reflexivity. Qed.

Lemma append_empty_r s : s +:+ EmptyString = s.
Proof.
  induction s as [|c s IH]; [reflexivity|]. now rewrite append_cons, IH.
Qed.

Lemma append_assoc s t u : (s +:+ t) +:+ u = s +:+ t +:+ u.
Proof.
  induction s as [|c s IH]; [reflexivity|]. now rewrite !append_cons, IH.
Qed.

Lemma strip_prefix_Some p s r : JS.strip_prefix p s = Some r -> s = p +:+ r.
Proof.
  revert s. induction p as [|a p IH]; intros s H; simpl in H.
  - injection H as ->. reflexivity.
  - destruct s as [|b s]; [discriminate|].
    destruct (Ascii.eqb_spec a b) as [->|]; [|discriminate].
    rewrite append_cons. f_equal. now apply IH.
Qed.



(** Whether a line terminator begins a text does not depend on an ASCII
    character that follows the text, nor on what comes after it: the
    bytes of U+2028 and of U+2029 are not ASCII characters. *)
Lemma line_terminator_before c t m0 m :
  (N_of_ascii m0 <? 128)%N = true ->
  JS.is_line_terminator (String c (t +:+ String m0 m))
  = JS.is_line_terminator (String c t).
Proof.
  intros H. apply N.ltb_lt in H.
  assert (H128 : (N_of_ascii m0 =? 128)%N = false) by (apply N.eqb_neq; lia).
  assert (H168 : (N_of_ascii m0 =? 168)%N = false) by (apply N.eqb_neq; lia).
  assert (H169 : (N_of_ascii m0 =? 169)%N = false) by (apply N.eqb_neq; lia).
  destruct t as [|c2 [|c3 t]]; rewrite ?append_cons, ?append_empty;
    cbn [JS.is_line_terminator].
  - rewrite H128. now destruct m.
  - rewrite H168, H169. cbn [orb]. now rewrite !andb_false_r.
  - reflexivity.
Qed.









(** *** Base64 *)











(** The encoding of the five bytes of [Hello]. *)
Example base64_Hello : base64 (list_byte_of_string "Hello") = "SGVsbG8=".
Proof. reflexivity. Qed.

Section DataURL.

Context {env : Env}.



End DataURL.



(** A media type that holds the line separator U+2028 (the bytes E2 80 A8
    in UTF-8) or a line feed is not matched by the pattern, whose [.]
    refuses line terminators: the URL is none of the two inline forms. *)
Example data_url_type_with_line_terminator :
  match_data ("data:text" +:+ String (ascii_of_N 226) (String (ascii_of_N 128)
                (String (ascii_of_N 168) "plain,Hello"))) = None
  /\ match_data ("data:text" +:+ String (ascii_of_N 10) "plain,Hello") = None
  /\ match_file ("file:///tmp/a" +:+ String (ascii_of_N 226)
                   (String (ascii_of_N 128) (String (ascii_of_N 169) "b")))
     = None.
Proof. repeat split; reflexivity. Qed.

(** The three bytes E2 80 A8 received in a header are the three
    characters U+00E2, U+0080 and U+00A8 of a JavaScript string, none of
    which is a line terminator: a path that holds them is matched. *)
Example latin1_characters_are_matched :
  exists path,
    match_file
      ("file:///tmp/" +:+
       String (ascii_of_N 195) (String (ascii_of_N 162)
         (String (ascii_of_N 194) (String (ascii_of_N 128)
            (String (ascii_of_N 194)
               (String (ascii_of_N 168) EmptyString))))))
    = Some path.
Proof. eexists. reflexivity. Qed.

(** ** The redirect counter *)

Section Counter.

Context {env : Env}.

Lemma redirected_fields status request :
  Request.counter (redirected status request)
  = JS.increment (Request.counter request)
  /\ Request.follow (redirected status request) = Request.follow request
  /\ Request.redirect (redirected status request) = Request.redirect request.
Proof.
  unfold redirected. destruct (rewrites_to_GET _ _); repeat split; reflexivity.
Qed.

(** One followed redirect increments the counter, below the limit, and
    keeps the limit and the mode. *)
Lemma hop_counter request next :
  hop request next ->
  Request.counter next = JS.increment (Request.counter request)
  /\ Request.follow next = Request.follow request
  /\ Request.counter request < Request.follow request
  /\ (follows_redirects request -> follows_redirects next).
Proof.
  intros [r res next_url request' nxt Hfollow Hnext].
  destruct (on_response_Follow _ _ _ _ Hfollow) as (_ & Hm & He & Hlt & ->).
  destruct (Request_constructor_fields _ _ _ Hnext)
    as (_ & _ & Hc & _ & _ & Hf & Hr & _).
  destruct (redirected_fields (statusCode res) r) as (Rc & Rf & Rr).
  cbn [Request.as_init Init.counter Init.follow Init.redirect] in Hc, Hf, Hr.
  rewrite Rc in Hc. rewrite Rf in Hf. rewrite Rr in Hr.
  split; [rewrite Hc; simpl; apply or_num_Some|].
  split; [rewrite Hf; reflexivity|].
  split; [exact Hlt|].
  intros _. unfold follows_redirects. rewrite Hr. simpl. unfold JS.or_str.
  destruct (JS.truthy (Request.redirect r));
    split; first [assumption | discriminate].
Qed.

(** In the exact range one followed redirect adds one to the counter,
    and the next descriptor is in the exact range. *)
Lemma hop_counter_exact request next :
  exact_range request ->
  hop request next ->
  Request.counter next = Request.counter request + 1
  /\ Request.follow next = Request.follow request
  /\ exact_range next.
Proof.
  intros [Hl Hu] Hhop.
  destruct (hop_counter _ _ Hhop) as (Hc & Hf & Hlt & _).
  rewrite increment_exact in Hc by lia.
  split; [exact Hc|]. split; [exact Hf|].
  unfold exact_range. rewrite Hc, Hf. lia.
Qed.







End Counter.




(** With the counter preset to 2^53 and [follow: 2^53 + 2] the counter
    never reaches the limit: against a server that always redirects, every
    level of fuel is spent on one more transport call and the redirect is
    not refused. *)
Example saturated_counter_keeps_following :
  exists calls,
    fetch (env := redirecting_env) 7 0 (InString "http://example.com/")
      (follow_options (2 ^ 53 + 2) (Some (2 ^ 53)))
    = (calls, None)
    /\ length calls = 7%nat.
Proof. eexists. split; [vm_compute; reflexivity | reflexivity]. Qed.

(** With the default counter and [follow: 3], three redirects are followed
    and the fourth is refused: four transport calls. *)
Example three_redirects_then_refused :
  exists calls message,
    fetch (env := redirecting_env) 9 0 (InString "http://example.com/")
      (follow_options 3 None)
    = (calls,
       Some (Rejected (RejFetch {| fe_message := message;
                                   fe_kind := max_redirect;
                                   fe_cause := None |})))
    /\ length calls = 4%nat.
Proof. eexists _, _. split; [vm_compute; reflexivity | reflexivity]. Qed.

(** A descriptor with method [GET] and a body, as the constructor returns
    it for a method written in lower case, cannot be carried over a
    redirect that keeps the method: the constructor refuses it at the
    next hop, after the first transport call. *)
Example lowercase_get_with_body_stops_at_redirect :
  exists call,
    fetch (env := simple_env (always_redirect 307 "http://example.com/next"))
      5 0 (InString "http://example.com/") lowercase_get_with_body
    = ([call],
       Some (Rejected
               (RejType (MkTypeError
                           "Request with GET/HEAD method cannot have body")))).
Proof. eexists. vm_compute. reflexivity. Qed.

(** ** More on the transport-options builder *)

(** A header name of the code is not the name [k] at hand. *)
Ltac other_name :=
  let E := fresh "E" in
  intros E; vm_compute in E; congruence.

Section BuilderMore.

Context {env : Env}.

(** The builder reads two components of the parsed URL.  It refuses,
    with [Only absolute URLs are supported], a URL whose protocol or host
    name is absent or empty; then, with
    [Only HTTP(S) protocols are supported], a protocol that is neither
    [http:] nor [https:], compared as written.  It returns options for
    every other descriptor, and only for those: a host name that is not
    empty and one of the two protocols. *)
Theorem builder_validates_url request :
  (protocol (Request.parsedURL request) = None
   \/ protocol (Request.parsedURL request) = Some EmptyString
   \/ hostname (Request.parsedURL request) = None
   \/ hostname (Request.parsedURL request) = Some EmptyString ->
   getNodeRequestOptions request
   = inl (MkTypeError "Only absolute URLs are supported"))
  /\ (forall p h,
        protocol (Request.parsedURL request) = Some p ->
        hostname (Request.parsedURL request) = Some h ->
        p <> EmptyString -> h <> EmptyString ->
        p <> "http:" -> p <> "https:" ->
        getNodeRequestOptions request
        = inl (MkTypeError "Only HTTP(S) protocols are supported"))
  /\ (forall h,
        hostname (Request.parsedURL request) = Some h ->
        h <> EmptyString ->
        protocol (Request.parsedURL request) = Some "http:"
        \/ protocol (Request.parsedURL request) = Some "https:" ->
        exists options, getNodeRequestOptions request = inr options)
  /\ (forall options,
        getNodeRequestOptions request = inr options ->
        (exists h,
           hostname (Request.parsedURL request) = Some h
           /\ h <> EmptyString)
        /\ (protocol (Request.parsedURL request) = Some "http:"
            \/ protocol (Request.parsedURL request) = Some "https:")).
Proof.
  split; [|split; [|split]].
  - intros H. unfold getNodeRequestOptions.
    assert (missing (protocol (Request.parsedURL request))
            || missing (hostname (Request.parsedURL request)) = true) as ->.
    { destruct H as [-> | [-> | [-> | ->]]]; cbn [missing JS.falsy];
        rewrite ?orb_true_r; reflexivity. }
    reflexivity.
  - intros p h Hp Hh Hpne Hhne H1 H2. unfold getNodeRequestOptions.
    rewrite Hp, Hh. cbn [missing default from_option id].
    destruct p as [|c p]; [congruence|]. destruct h as [|d h]; [congruence|].
    cbn [JS.falsy orb]. unfold is_http_protocol.
    apply String.eqb_neq in H1, H2. now rewrite H1, H2.
  - intros h Hh Hhne Hp. unfold getNodeRequestOptions. rewrite Hh.
    destruct h as [|d h]; [congruence|].
    destruct Hp as [-> | ->]; eexists; reflexivity.
  - intros options H. unfold getNodeRequestOptions in H.
    destruct (protocol (Request.parsedURL request)) as [p|];
      [|discriminate H].
    destruct (hostname (Request.parsedURL request)) as [h|].
    2:{ cbn [missing] in H. rewrite orb_true_r in H. discriminate H. }
    cbn [missing default from_option id] in H.
    destruct p as [|c p]; [discriminate H|].
    destruct h as [|d h]; [discriminate H|].
    cbn [JS.falsy orb] in H. unfold is_http_protocol in H.
    split; [exists (String d h); split; [reflexivity | discriminate]|].
    destruct (String.eqb_spec (String c p) "http:") as [-> | E1];
      [now left|].
    destruct (String.eqb_spec (String c p) "https:") as [-> | E2];
      [now right | discriminate H].
Qed.

(** The parts of the options that are not headers come from the
    descriptor. *)
Lemma getNodeRequestOptions_passes request options :
  getNodeRequestOptions request = inr options ->
  o_method options = Request.method request
  /\ o_agent options = Request.agent request
  /\ o_url options = Request.parsedURL request.
Proof.
  unfold getNodeRequestOptions. intros H.
  destruct (missing _ || missing _); [discriminate|].
  destruct (negb (is_http_protocol _)); [discriminate|].
  injection H as <-. repeat split.
Qed.

(** The defaults of the builder: [Accept: */*] and the [User-Agent] of the
    library for a descriptor without them, and [Connection: close] for a
    descriptor without a [Connection] header and without an agent; with
    an agent no [Connection] header is added. *)
Theorem builder_fills_absent_headers request options :
  getNodeRequestOptions request = inr options ->
  (Headers.has "Accept" (Request.headers request) = false ->
   o_headers options !! "accept" = Some ["*/*"])
  /\ (Headers.has "User-Agent" (Request.headers request) = false ->
      o_headers options !! "user-agent"
      = Some ["node-fetch/1.0 (+https://github.com/bitinn/node-fetch)"])
  /\ (Headers.has "Connection" (Request.headers request) = false ->
      Request.agent request = None ->
      o_headers options !! "connection" = Some ["close"])
  /\ (Headers.has "Connection" (Request.headers request) = false ->
      is_Some (Request.agent request) ->
      o_headers options !! "connection" = None).
Proof.
  intros H.
  destruct (getNodeRequestOptions_headers _ _ H)
    as (h1 & h2 & h3 & h4 & E1 & E2 & E3 & E4 & Eo & _).
  assert (H2 : forall k, k <> "content-length" -> h2 !! k = h1 !! k).
  { intros k Hk. rewrite E2. destruct (contentLengthValue request);
      [|reflexivity]. apply lookup_set_ne. other_name. }
  assert (H4 : forall k, k <> "accept-encoding" -> h4 !! k = h3 !! k).
  { intros k Hk. rewrite E4. apply lookup_set_when_ne. other_name. }
  split; [|split; [|split]].
  - intros Ha. rewrite Eo, lookup_set_when_ne by discriminate.
    rewrite H4 by discriminate.
    rewrite E3, lookup_set_unless_ne by discriminate.
    rewrite H2 by discriminate. rewrite E1, Ha.
    apply (lookup_set_eq "Accept").
  - intros Hu. rewrite Eo, lookup_set_when_ne by discriminate.
    rewrite H4 by discriminate.
    assert (Headers.has "User-Agent" h2 = false) as Hu2.
    { apply has_false. rewrite H2 by discriminate.
      rewrite E1, lookup_set_unless_ne by discriminate.
      now apply has_false. }
    rewrite E3, Hu2. apply (lookup_set_eq "User-Agent").
  - intros Hc Hagent.
    assert (Headers.has "Connection" h4 = false) as Hc4.
    { apply has_false. rewrite H4 by discriminate.
      rewrite E3, lookup_set_unless_ne by discriminate.
      rewrite H2 by discriminate.
      rewrite E1, lookup_set_unless_ne by discriminate.
      now apply has_false. }
    rewrite Eo, Hc4, Hagent. simpl. apply (lookup_set_eq "Connection").
  - intros Hc Hagent.
    assert (Headers.has "Connection" h4 = false) as Hc4.
    { apply has_false. rewrite H4 by discriminate.
      rewrite E3, lookup_set_unless_ne by discriminate.
      rewrite H2 by discriminate.
      rewrite E1, lookup_set_unless_ne by discriminate.
      now apply has_false. }
    rewrite Eo, Hc4. rewrite bool_decide_eq_true_2 by exact Hagent.
    simpl. now apply (has_false "Connection").
Qed.

(** What the builder leaves alone: the method, the agent and the URL are
    those of the descriptor, every header under a name that the builder
    does not write reaches the options as the descriptor has it, and so
    does [Accept-Encoding] when [compress] is false. *)
Theorem builder_keeps_the_rest request options :
  getNodeRequestOptions request = inr options ->
  o_method options = Request.method request
  /\ o_agent options = Request.agent request
  /\ o_url options = Request.parsedURL request
  /\ (forall k, k ∉ builder_names ->
        o_headers options !! k = Request.headers request !! k)
  /\ (Request.compress request = false ->
      o_headers options !! "accept-encoding"
      = Request.headers request !! "accept-encoding").
Proof.
  intros H.
  destruct (getNodeRequestOptions_passes _ _ H) as (Hm & Ha & Hu).
  destruct (getNodeRequestOptions_headers _ _ H)
    as (h1 & h2 & h3 & h4 & E1 & E2 & E3 & E4 & Eo & _).
  split; [exact Hm|]. split; [exact Ha|]. split; [exact Hu|].
  assert (Hrest : forall k,
             k <> "accept" -> k <> "content-length" -> k <> "user-agent" ->
             k <> "connection" ->
             h3 !! k = Request.headers request !! k
             /\ o_headers options !! k = h4 !! k).
  { intros k Hk1 Hk2 Hk3 Hk4. split.
    - rewrite E3, lookup_set_unless_ne by other_name.
      rewrite E2.
      assert (h1 !! k = Request.headers request !! k) as Hh1.
      { rewrite E1. apply lookup_set_unless_ne. other_name. }
      destruct (contentLengthValue request); [|exact Hh1].
      rewrite lookup_set_ne by other_name. exact Hh1.
    - rewrite Eo. apply lookup_set_when_ne. other_name. }
  split.
  - intros k Hk. unfold builder_names in Hk.
    rewrite !not_elem_of_cons in Hk.
    destruct Hk as (K1 & K2 & K3 & K4 & K5 & _).
    destruct (Hrest k K1 K2 K3 K5) as [H3 Ho]. rewrite Ho, E4.
    rewrite lookup_set_when_ne by other_name. exact H3.
  - intros Hc.
    destruct (Hrest "accept-encoding") as [H3 Ho]; try discriminate.
    rewrite Ho, E4, Hc. exact H3.
Qed.

End BuilderMore.

Lemma builder_validates_url_witness :
  getNodeRequestOptions (env := simple_env silent) ftp_request
  = inl (MkTypeError "Only HTTP(S) protocols are supported")
  /\ getNodeRequestOptions (env := simple_env silent) relative_request
     = inl (MkTypeError "Only absolute URLs are supported").
Proof.
  split.
  - apply (proj1 (proj2 (builder_validates_url (env := simple_env silent)
                           ftp_request)) "ftp:" "example.com");
      try reflexivity; discriminate.
  - apply (builder_validates_url (env := simple_env silent) relative_request).
    left. reflexivity.
Defined.

Lemma builder_fills_absent_headers_witness :
  exists options,
    getNodeRequestOptions (env := simple_env silent) agent_request
    = inr options
    /\ o_headers options !! "accept" = Some ["*/*"]
    /\ o_headers options !! "connection" = None.
Proof.
  eexists. split; [reflexivity|].
  destruct (builder_fills_absent_headers (env := simple_env silent)
              agent_request _ eq_refl) as (Ha & _ & _ & Hc).
  split; [exact (Ha eq_refl)|]. apply Hc; [reflexivity | eexists; reflexivity].
Defined.

Lemma builder_keeps_the_rest_witness :
  exists options,
    getNodeRequestOptions (env := simple_env silent) agent_request
    = inr options
    /\ o_headers options !! "x-trace" = Some ["abc"]
    /\ o_headers options !! "accept-encoding" = None.
Proof.
  eexists. split; [reflexivity|].
  destruct (builder_keeps_the_rest (env := simple_env silent)
              agent_request _ eq_refl) as (_ & _ & _ & Hk & He).
  split; [|exact (He eq_refl)].
  rewrite Hk; [reflexivity|].
  unfold builder_names. rewrite !not_elem_of_cons.
  repeat split; try discriminate. apply not_elem_of_nil.
Defined.

(** ** More on the constructor *)

Section ConstructorMore.

Context {env : Env}.

(** The remaining fields of a descriptor that the constructor returns. *)
Lemma Request_constructor_more_fields input init request :
  Request_constructor input init = inr request ->
  Request.compress request
  = JS.or_undef (Init.compress init)
      (JS.or_undef (Request.compress <$> prior input) true)
  /\ Request.agent request
     = match Init.agent init with
       | Some a => Some a
       | None => prior input ≫= Request.agent
       end
  /\ Request.headers request
     = match Init.body init with
       | Some b =>
           match extractContentType b with
           | Some contentType =>
               if Headers.has "Content-Type" (chosen_headers input init)
               then chosen_headers input init
               else Headers.append "Content-Type" contentType
                      (chosen_headers input init)
           | None => chosen_headers input init
           end
       | None => chosen_headers input init
       end
  /\ Request.parsedURL request
     = match input with
       | InRequest r => parse_url (url r)
       | InHref h str => if JS.truthy h then parse_url h else parse_url str
       | InString s => parse_url s
       end.
Proof.
  unfold Request_constructor.
  destruct (_ && _); [discriminate|].
  intros H. injection H as <-. repeat split.
Qed.


(** Every descriptor that the constructor returns has a method in upper
    case that is not empty and a redirect mode that is not empty.  When
    the caller wrote the method in upper case, or left it out, the
    descriptor also has no body with [GET] or [HEAD]. *)
Theorem constructor_establishes_invariant input init request :
  Request_constructor input init = inr request ->
  String_toUpperCase (Request.method request) = Request.method request
  /\ Request.method request <> EmptyString
  /\ Request.redirect request <> EmptyString
  /\ (String_toUpperCase (requested_method input init)
      = requested_method input init ->
      body_allowed request).
Proof.
  intros H.
  destruct (constructed_method _ _ _ H) as [Hup Htr].
  destruct (Request_constructor_fields _ _ _ H)
    as (Hm & Hb & _ & _ & _ & _ & Hr & _).
  split; [exact Hup|]. split; [now destruct (Request.method request)|].
  split.
  - assert (JS.truthy (Request.redirect request) = true) as Ht.
    { rewrite Hr. apply or_str_truthy, or_str_truthy. reflexivity. }
    now destruct (Request.redirect request).
  - intros Hsame Hgh. rewrite Hm, Hsame in Hgh.
    destruct (Request.body request) as [b|] eqn:Hbody; [exfalso | reflexivity].
    assert (Hthrows : exists e, Request_constructor input init = inl e).
    { apply Request_constructor_throws. split.
      - rewrite Hb in Hbody.
        destruct (Init.body init); [left; eauto|]. right.
        destruct input as [s | h str | r]; try discriminate.
        simpl. apply bool_decide_eq_true.
        destruct (Request.body r); [eauto | discriminate].
      - unfold is_GET_or_HEAD in Hgh. apply orb_true_iff in Hgh.
        destruct Hgh as [Hg | Hh]; [left | right]; now apply String.eqb_eq. }
    destruct Hthrows as [e He]. congruence.
Qed.

(** [Content-Type] is inferred from a body given in the options, and only
    then: with no [Content-Type] among the headers that the constructor
    copies, the type of the body becomes the one value of that header and
    the other headers are as copied; a [Content-Type] that is there is
    kept; and without a body in the options the headers are the copied
    ones, also when a body is inherited from a prior descriptor. *)
Theorem content_type_is_inferred input init request :
  Request_constructor input init = inr request ->
  (forall b contentType,
     Init.body init = Some b ->
     extractContentType b = Some contentType ->
     Headers.has "Content-Type" (chosen_headers input init) = false ->
     Headers.getAll "Content-Type" (Request.headers request) = [contentType]
     /\ forall k, k <> "content-type" ->
          Request.headers request !! k = chosen_headers input init !! k)
  /\ (forall b,
        Init.body init = Some b ->
        Headers.has "Content-Type" (chosen_headers input init) = true ->
        Request.headers request = chosen_headers input init)
  /\ (Init.body init = None ->
      Request.headers request = chosen_headers input init).
Proof.
  intros H.
  destruct (Request_constructor_more_fields _ _ _ H) as (_ & _ & Hh & _).
  rewrite Hh. split; [|split].
  - intros b contentType -> -> Habsent. rewrite Habsent. split.
    + apply has_false in Habsent.
      unfold Headers.getAll, Headers.append.
      rewrite lookup_insert_eq. unfold Headers.getAll. now rewrite Habsent.
    + intros k Hk. apply lookup_append_ne. other_name.
  - intros b -> ->. now destruct (extractContentType b).
  - now intros ->.
Qed.

(** [clone()] of a descriptor built by the constructor.  It throws for a
    descriptor that has a body with [GET] or [HEAD]; for every other one
    it returns a descriptor with the same method, headers, redirect mode,
    limits, flags, counter and agent, whose body is the clone of the body
    and whose URL is the formatted URL parsed again. *)
Theorem clone_copies_descriptor input init this :
  Request_constructor input init = inr this ->
  (is_Some (Request.body this) ->
   is_GET_or_HEAD (Request.method this) = true ->
   exists e, Request_clone this = inl e)
  /\ (body_allowed this ->
      exists copy,
        Request_clone this = inr copy
        /\ Request.method copy = Request.method this
        /\ Request.body copy = clone <$> Request.body this
        /\ Request.headers copy = Request.headers this
        /\ Request.redirect copy = Request.redirect this
        /\ Request.follow copy = Request.follow this
        /\ Request.compress copy = Request.compress this
        /\ Request.counter copy = Request.counter this
        /\ Request.agent copy = Request.agent this
        /\ Request.timeout copy = Request.timeout this
        /\ Request.size copy = Request.size this
        /\ Request.parsedURL copy = parse_url (url this)).
Proof.
  intros H.
  destruct (constructed_method _ _ _ H) as [Hup Hne].
  assert (Hrne : Request.redirect this <> EmptyString).
  { destruct (Request_constructor_fields _ _ _ H)
      as (_ & _ & _ & _ & _ & _ & Hr & _).
    assert (JS.truthy (Request.redirect this) = true) as Ht.
    { rewrite Hr. apply or_str_truthy, or_str_truthy. reflexivity. }
    now destruct (Request.redirect this). }
  assert (Hm : requested_method (InRequest this) Init.empty
               = Request.method this).
  { unfold requested_method. simpl. apply or_str_Some_truthy.
    now destruct (Request.method this). }
  assert (Hnum : forall x : Z, JS.or_num None (JS.or_num (Some x) 0) = x).
  { intros x. unfold JS.or_num. destruct (Z.eqb_spec x 0); congruence. }
  split.
  - intros Hbody Hgh. apply Request_constructor_throws. rewrite Hm. split.
    + right. simpl. now apply bool_decide_eq_true.
    + unfold is_GET_or_HEAD in Hgh. apply orb_true_iff in Hgh.
      destruct Hgh as [Hg | Hh]; [left | right]; now apply String.eqb_eq.
  - intros Hinv. unfold Request_clone.
    destruct (Request_constructor (InRequest this) Init.empty)
      as [e | copy] eqn:Hcopy.
    + exfalso.
      assert (Hthrows : exists e, Request_constructor (InRequest this)
                          Init.empty = inl e) by eauto.
      apply Request_constructor_throws in Hthrows.
      rewrite Hm in Hthrows. destruct Hthrows as [[Hb | Hb] Hmeth].
      * destruct Hb as [b Hb]. discriminate Hb.
      * simpl in Hb. apply bool_decide_eq_true in Hb.
        assert (Hgh : is_GET_or_HEAD (Request.method this) = true).
        { unfold is_GET_or_HEAD. destruct Hmeth as [-> | ->]; reflexivity. }
        rewrite (Hinv Hgh) in Hb. now destruct Hb.
    + exists copy. split; [reflexivity|].
      destruct (Request_constructor_fields _ _ _ Hcopy)
        as (Fm & Fb & Fc & Ft & Fs & Ff & Fr & _).
      destruct (Request_constructor_more_fields _ _ _ Hcopy)
        as (Fcomp & Fa & Fh & Fu).
      rewrite Fm, Fb, Fc, Ft, Fs, Ff, Fr, Fcomp, Fa, Fh, Fu, Hm, Hup.
      repeat split; try apply Hnum; try reflexivity.
      unfold JS.or_str. simpl.
      destruct (Request.redirect this); [congruence | reflexivity].
Qed.

End ConstructorMore.


Lemma constructor_establishes_invariant_witness :
  exists request,
    Request_constructor (env := simple_env silent)
      (InString "http://example.com/") post_options = inr request
    /\ Request.method request = "POST"
    /\ body_allowed request.
Proof.
  eexists. split; [reflexivity|]. split; [reflexivity|].
  apply (constructor_establishes_invariant (env := simple_env silent)
           (InString "http://example.com/") post_options _ eq_refl).
  reflexivity.
Defined.

Lemma content_type_is_inferred_witness :
  exists request,
    Request_constructor (env := simple_env silent)
      (InString "http://example.com/") post_options = inr request
    /\ Headers.getAll "Content-Type" (Request.headers request)
       = ["text/plain;charset=UTF-8"].
Proof.
  eexists. split; [reflexivity|].
  destruct (content_type_is_inferred (env := simple_env silent)
              (InString "http://example.com/") post_options _ eq_refl)
    as (Hinferred & _).
  apply (Hinferred (BString "a=1") "text/plain;charset=UTF-8"); reflexivity.
Defined.

Lemma clone_copies_descriptor_witness :
  exists copy,
    Request_clone (env := simple_env silent) post_request = inr copy
    /\ Request.method copy = "POST"
    /\ Request.body copy = Some (BString "a=1")
    /\ Request.counter copy = 0.
Proof.
  destruct (clone_copies_descriptor (env := simple_env silent)
              (InString "http://example.com/") (Request.as_init post_request)
              post_request eq_refl) as [_ Hcopy].
  destruct Hcopy as (copy & Hc & Hm & Hb & _ & _ & _ & _ & Hn & _).
  - intros Hgh. discriminate Hgh.
  - exists copy. repeat split; assumption.
Defined.

(** ** More on the response handler *)

Local Open Scope list_scope.

Lemma getAll_append_eq name value (h : Headers.t) :
  Headers.append name value h !! Headers.sanitizeName name
  = Some (Headers.getAll name h ++ [value]).
Proof. unfold Headers.append. apply lookup_insert_eq. Qed.

(** The values appended for one header of the response. *)
Lemma lookup_append_header_eq (h : Headers.t) kv :
  append_header h kv !! Headers.sanitizeName kv.1
  = match header_values kv.2 with
    | [] => h !! Headers.sanitizeName kv.1
    | vs => Some (Headers.getAll kv.1 h ++ vs)
    end.
Proof.
  unfold append_header. destruct kv.2 as [v|vs]; simpl.
  - apply getAll_append_eq.
  - revert h. induction vs as [|v vs IH]; intros h; [reflexivity|].
    simpl. rewrite IH. destruct vs as [|v' vs].
    + simpl. apply getAll_append_eq.
    + f_equal. unfold Headers.getAll at 1. rewrite getAll_append_eq. simpl.
      now rewrite <- app_assoc.
Qed.

Lemma lookup_normalize_values name o : forall h : Headers.t,
  foldl append_header h o !! Headers.sanitizeName name
  = match values_of name o with
    | [] => h !! Headers.sanitizeName name
    | vs => Some (Headers.getAll name h ++ vs)
    end.
Proof.
  induction o as [|kv o IH]; intros h; [reflexivity|].
  simpl. rewrite IH.
  destruct (decide (Headers.sanitizeName kv.1 = Headers.sanitizeName name))
    as [Heq | Hne].
  - assert (Hget : forall h' : Headers.t,
               Headers.getAll kv.1 h' = Headers.getAll name h').
    { intros h'. unfold Headers.getAll. now rewrite Heq. }
    pose proof (lookup_append_header_eq h kv) as Hkv.
    rewrite Heq, Hget in Hkv.
    assert (Hall : Headers.getAll name (append_header h kv)
                   = Headers.getAll name h ++ header_values kv.2).
    { unfold Headers.getAll at 1. rewrite Hkv.
      destruct (header_values kv.2); simpl; [|reflexivity].
      now rewrite app_nil_r. }
    rewrite Hall, Hkv.
    destruct (header_values kv.2) as [|v vs];
      destruct (values_of name o) as [|w ws]; simpl;
      rewrite ?app_nil_r, <- ?app_assoc; reflexivity.
  - unfold Headers.getAll at 1.
    rewrite lookup_append_header_ne by exact Hne. reflexivity.
Qed.

(** Normalisation keeps every value of every header: under a name, in any
    letter case, the [Headers] of the response hold the values that the
    transport delivered under that name, arrays flattened, in the order
    of the response; a name with no value is absent. *)
Theorem normalize_headers_keeps_all_values name o :
  normalize_headers o !! Headers.sanitizeName name
  = match values_of name o with
    | [] => None
    | vs => Some vs
    end.
Proof.
  unfold normalize_headers. rewrite lookup_normalize_values.
  unfold Headers.getAll, Headers.empty. rewrite lookup_empty.
  now destruct (values_of name o).
Qed.

Section HandlerMore.

Context {env : Env}.

(** In manual mode a [Location] header of the response is replaced by its
    one absolute form, resolved against the URL of the request, and every
    other header is as normalised; outside manual mode the headers of the
    response are the normalised ones. *)
Theorem manual_mode_resolves_location request res :
  (Request.redirect request = "manual" ->
   (forall location,
      Headers.get "location" (normalize_headers (res_headers res))
      = Some location ->
      response_headers request res !! "location"
      = Some [resolve_url (url request) (Single location)])
   /\ (forall k, k <> "location" ->
         response_headers request res !! k
         = normalize_headers (res_headers res) !! k))
  /\ (Request.redirect request <> "manual" ->
      response_headers request res = normalize_headers (res_headers res)).
Proof.
  unfold response_headers. split.
  - intros ->. simpl. split.
    + intros location Hl.
      assert (Headers.has "location" (normalize_headers (res_headers res))
              = true) as ->.
      { apply has_true. unfold Headers.get in Hl.
        destruct (normalize_headers (res_headers res)
                    !! Headers.sanitizeName "location"); [eauto | discriminate]. }
      rewrite Hl. apply (lookup_set_eq "location").
    + intros k Hk. apply lookup_set_when_ne. other_name.
  - intros Hm. apply String.eqb_neq in Hm. now rewrite Hm.
Qed.




(** The handler rejects only a redirect status outside manual mode, and
    each kind has its cause: [no-redirect] the mode [error],
    [max-redirect] a counter that has reached [follow], and
    [invalid-redirect] a [Location] that is absent or empty. *)
Theorem handler_rejections_have_causes request res e :
  on_response request res = Settle (Rejected e) ->
  isRedirect (statusCode res) = true
  /\ Request.redirect request <> "manual"
  /\ exists message kind,
       e = RejFetch {| fe_message := message +:+ url request;
                       fe_kind := kind;
                       fe_cause := None |}
       /\ (kind = no_redirect /\ Request.redirect request = "error"
           \/ kind = max_redirect
              /\ Request.counter request >= Request.follow request
           \/ kind = invalid_redirect
              /\ (header_prop "location" (res_headers res) = None
                  \/ header_prop "location" (res_headers res)
                     = Some (Single ""))).
Proof.
  intros H.
  assert (Hterm : is_terminal request res -> False).
  { intros Ht. rewrite on_response_terminal in H by exact Ht.
    unfold terminal, respond in H.
    repeat match type of H with
           | (if ?c then _ else _) = _ => destruct c
           | match ?c with _ => _ end = _ => destruct c
           end; discriminate. }
  destruct (isRedirect (statusCode res)) eqn:Hs;
    [|exfalso; apply Hterm; now left].
  destruct (String.eqb_spec (Request.redirect request) "manual") as [Hm|Hm];
    [exfalso; apply Hterm; now right|].
  split; [reflexivity|]. split; [exact Hm|].
  rewrite on_response_redirect in H by assumption. unfold reject in H.
  destruct (String.eqb_spec (Request.redirect request) "error") as [He|He].
  { injection H as <-. eexists _, _. split; [reflexivity|]. now left. }
  destruct (Z.geb_spec (Request.counter request) (Request.follow request)).
  { injection H as <-. eexists _, _. split; [reflexivity|].
    right. left. split; [reflexivity | lia]. }
  destruct (header_prop "location" (res_headers res)) as [location|].
  - destruct location as [[|c l]|vs]; simpl in H; try discriminate.
    injection H as <-. eexists _, _. split; [reflexivity|].
    right. right. split; [reflexivity | now right].
  - injection H as <-. eexists _, _. split; [reflexivity|].
    right. right. split; [reflexivity | now left].
Qed.

End HandlerMore.

Lemma manual_mode_resolves_location_witness :
  response_headers (env := simple_env silent) manual_request
    (redirect_response 302) !! "location"
  = Some ["http://example.com/next"].
Proof.
  destruct (manual_mode_resolves_location (env := simple_env silent)
              manual_request (redirect_response 302)) as [Hmanual _].
  destruct (Hmanual eq_refl) as [Hloc _].
  apply (Hloc "http://example.com/next"). reflexivity.
Defined.

(** A coding is compared as written: [GZIP] is none of the four tokens
    of the code, and the body stays the raw pass-through. *)
Example uppercase_gzip_is_not_decoded :
  exists options,
    on_response (env := simple_env silent) get_request
      (encoded_response "GZIP" [[x1f; x8b]])
    = Settle (Resolved {| resp_body := PassThrough [[x1f; x8b]];
                          resp_options := Some options |}).
Proof. eexists. reflexivity. Qed.


Lemma handler_rejections_have_causes_witness :
  exists message kind,
    RejFetch {| fe_message :=
                  "redirect location header missing at: http://example.com/";
                fe_kind := invalid_redirect;
                fe_cause := None |}
    = RejFetch {| fe_message := message +:+ "http://example.com/";
                  fe_kind := kind;
                  fe_cause := None |}
    /\ kind = invalid_redirect.
Proof.
  destruct (handler_rejections_have_causes (env := simple_env silent)
              get_request empty_location_response _ eq_refl)
    as (_ & _ & message & kind & He & Hcause).
  exists message, kind. split; [exact He|].
  destruct Hcause as [[_ Hmode] | [[_ Hc] | [Hk _]]];
    [discriminate Hmode | | exact Hk].
  exfalso. apply Hc. reflexivity.
Defined.

(** The two [Set-Cookie] entries of a response and the values of its
    array are all kept, in order, and a name in mixed case is found under
    its lower case. *)
Example cookie_values_are_flattened :
  Headers.getAll "Set-Cookie" (normalize_headers (res_headers cookie_response))
  = ["a=1"; "b=2"; "c=3"]
  /\ Headers.get "x-id" (normalize_headers (res_headers cookie_response))
     = Some "7".
Proof. split; reflexivity. Qed.

(** ** The two URL patterns *)

(** Whether a line terminator begins a text that is followed by the
    marker or by the comma is decided by the text. *)
Lemma line_terminator_before_marker c mid (isBase64 : bool) d :
  JS.is_line_terminator
    (String c (mid +:+ (if isBase64 then ";base64," else ",") +:+ d))
  = JS.is_line_terminator (String c mid).
Proof.
  destruct isBase64.
  - apply (line_terminator_before c mid ";" ("base64," +:+ d) eq_refl).
  - apply (line_terminator_before c mid "," d eq_refl).
Qed.

Lemma data_scan_sound rest : forall acc type isBase64 dataString,
  data_scan acc rest = Some (type, isBase64, dataString) ->
  exists mid,
    type = acc +:+ mid
    /\ rest = mid +:+ (if isBase64 then ";base64," else ",") +:+ dataString
    /\ JS.no_line_terminator mid = true.
Proof.
  induction rest as [|c rest IH]; intros acc type isBase64 dataString H.
  - discriminate H.
  - cbn [data_scan] in H.
    destruct (JS.strip_prefix ";base64," (String c rest)) as [d|] eqn:Hm.
    { injection H as <- <- <-. exists EmptyString.
      rewrite append_empty_r. split; [reflexivity|]. split; [|reflexivity].
      exact (strip_prefix_Some _ _ _ Hm). }
    destruct (JS.strip_prefix "," (String c rest)) as [d|] eqn:Hc.
    { injection H as <- <- <-. exists EmptyString.
      rewrite append_empty_r. split; [reflexivity|]. split; [|reflexivity].
      exact (strip_prefix_Some _ _ _ Hc). }
    destruct (JS.is_line_terminator (String c rest)) eqn:Hl; [discriminate|].
    destruct (IH _ _ _ _ H) as (mid & Ht & Hr & Hn).
    exists (String c mid). split; [|split].
    + now rewrite Ht, append_assoc.
    + now rewrite Hr.
    + rewrite Hr, line_terminator_before_marker in Hl.
      cbn [JS.no_line_terminator]. now rewrite Hl, Hn.
Qed.

(** What the two patterns capture is in the URL: a path captured by the
    [file:] pattern is all that follows [file://] and has no line
    terminator; a type, marker and data captured by the [data:] pattern
    spell the URL back, and the type is not empty and has no line
    terminator. *)
Theorem url_patterns_capture_the_url :
  (forall url_ path,
     match_file url_ = Some path ->
     url_ = "file://" +:+ path /\ JS.no_line_terminator path = true)
  /\ (forall url_ type isBase64 dataString,
        match_data url_ = Some (type, isBase64, dataString) ->
        url_ = "data:" +:+ type
               +:+ (if isBase64 then ";base64," else ",") +:+ dataString
        /\ type <> EmptyString
        /\ JS.no_line_terminator type = true).
Proof.
  split.
  - intros url_ path H. unfold match_file in H.
    destruct (JS.strip_prefix "file://" url_) as [p|] eqn:Hp; [|discriminate].
    destruct (JS.no_line_terminator p) eqn:Hn; [|discriminate].
    injection H as <-. split; [now apply strip_prefix_Some | exact Hn].
  - intros url_ type isBase64 dataString H. unfold match_data in H.
    destruct (JS.strip_prefix "data:" url_) as [[|c rest]|] eqn:Hp;
      try discriminate.
    destruct (JS.is_line_terminator (String c rest)) eqn:Hl; [discriminate|].
    destruct (data_scan_sound _ _ _ _ _ H) as (mid & Ht & Hr & Hn).
    rewrite Hr, line_terminator_before_marker in Hl.
    apply strip_prefix_Some in Hp. rewrite Ht, Hp, Hr. split; [|split].
    + reflexivity.
    + discriminate.
    + rewrite append_cons, append_empty.
      cbn [JS.no_line_terminator]. now rewrite Hl, Hn.
Qed.

Lemma url_patterns_capture_the_url_witness :
  "file:///etc/hosts" = "file://" +:+ "/etc/hosts"
  /\ JS.no_line_terminator "/etc/hosts" = true.
Proof.
  apply (proj1 url_patterns_capture_the_url "file:///etc/hosts" "/etc/hosts").
  reflexivity.
Defined.

(** A [file:] URL that spans a line is not read, and a [data:] URL is
    cut at its first comma. *)
Example patterns_at_their_edges :
  match_file (String "f" (String "i" (String "l" (String "e" (String ":"
     (String "/" (String "/" (String "a" (String (ascii_of_N 10) "b")))))))))
  = None
  /\ match_data "data:text/csv,a,b" = Some ("text/csv", false, "a,b").
Proof. split; reflexivity. Qed.

(** ** More on [fetch] *)

Section FetchMore.

Context {env : Env}.

Lemma redirected_more_fields status request :
  Request.timeout (redirected status request) = Request.timeout request
  /\ Request.size (redirected status request) = Request.size request
  /\ Request.compress (redirected status request) = Request.compress request
  /\ Request.agent (redirected status request) = Request.agent request
  /\ forall k, k <> "content-length" ->
       Request.headers (redirected status request) !! k
       = Request.headers request !! k.
Proof.
  unfold redirected. destruct (rewrites_to_GET _ _); repeat split; simpl;
    try reflexivity.
  intros k Hk. apply lookup_delete_ne. other_name.
Qed.

(** The descriptor of the next hop carries the options of the request:
    the limit, the mode, the flags, the agent, the timeout and the size
    limit are the same, the counter is the incremented one (one more, for
    a counter from -2^53 and a limit up to 2^53), the URL is the resolved
    one, and the headers are the same but for [Content-Length] and
    [Content-Type]. *)
Theorem next_hop_carries_options
    input init request res next_url request' next :
  Request_constructor input init = inr request ->
  on_response request res = Follow next_url request' ->
  next_hop next_url request' = inr next ->
  Request.follow next = Request.follow request
  /\ Request.redirect next = Request.redirect request
  /\ Request.compress next = Request.compress request
  /\ Request.agent next = Request.agent request
  /\ Request.timeout next = Request.timeout request
  /\ Request.size next = Request.size request
  /\ Request.counter next = JS.increment (Request.counter request)
  /\ (exact_range request ->
      Request.counter next = Request.counter request + 1)
  /\ Request.parsedURL next = parse_url next_url
  /\ forall k, k <> "content-length" -> k <> "content-type" ->
       Request.headers next !! k = Request.headers request !! k.
Proof.
  intros Hbuilt Hfollow Hnext.
  destruct (Request_constructor_fields _ _ _ Hbuilt)
    as (_ & _ & _ & _ & _ & _ & Hmode & _).
  assert (Htruthy : JS.truthy (Request.redirect request) = true).
  { rewrite Hmode. apply or_str_truthy, or_str_truthy. reflexivity. }
  destruct (hop_counter _ _ (hop_intro _ _ _ _ _ Hfollow Hnext))
    as (Hc & Hf & _ & _).
  assert (Hexact : exact_range request ->
                   Request.counter next = Request.counter request + 1).
  { intros Hrange.
    apply (hop_counter_exact _ _ Hrange (hop_intro _ _ _ _ _ Hfollow Hnext)). }
  destruct (on_response_Follow _ _ _ _ Hfollow) as (_ & _ & _ & _ & ->).
  destruct (redirected_fields (statusCode res) request) as (_ & _ & Rr).
  destruct (redirected_more_fields (statusCode res) request)
    as (Rt & Rs & Rcomp & Ra & Rh).
  unfold next_hop in Hnext.
  destruct (Request_constructor_fields _ _ _ Hnext)
    as (_ & _ & _ & Ft & Fs & _ & Fr & Fu).
  destruct (Request_constructor_more_fields _ _ _ Hnext)
    as (Fcomp & Fa & Fh & _).
  cbn [Request.as_init Init.timeout Init.size Init.redirect Init.compress
       Init.agent Init.body Init.headers] in Ft, Fs, Fr, Fcomp, Fa, Fh.
  rewrite Rt in Ft. rewrite Rs in Fs. rewrite Rr in Fr.
  rewrite Rcomp in Fcomp. rewrite Ra in Fa.
  split; [exact Hf|].
  split; [rewrite Fr; now apply or_str_Some_truthy|].
  split; [exact Fcomp|].
  split; [rewrite Fa; simpl; now destruct (Request.agent request)|].
  split.
  { rewrite Ft. unfold JS.or_num. simpl.
    destruct (Z.eqb_spec (Request.timeout request) 0); congruence. }
  split.
  { rewrite Fs. unfold JS.or_num. simpl.
    destruct (Z.eqb_spec (Request.size request) 0); congruence. }
  split; [exact Hc|]. split; [exact Hexact|]. split; [now apply Fu|].
  intros k Hcl Hct.
  assert (Hchosen : chosen_headers (InString next_url)
                      (Request.as_init (redirected (statusCode res) request))
                    = Request.headers (redirected (statusCode res) request))
    by reflexivity.
  rewrite Fh, Hchosen.
  assert (Happ : forall contentType,
             Headers.append "Content-Type" contentType
               (Request.headers (redirected (statusCode res) request)) !! k
             = Request.headers (redirected (statusCode res) request) !! k).
  { intros contentType. apply lookup_append_ne. other_name. }
  destruct (Request.body (redirected (statusCode res) request)) as [b|];
    [|now apply Rh].
  destruct (extractContentType b); [|now apply Rh].
  destruct (Headers.has "Content-Type" _); [now apply Rh|].
  rewrite Happ. now apply Rh.
Qed.

(** In the exact range a followed redirect leaves one hop less to the
    next fetch. *)
Lemma hop_shortens request res next_url request' :
  exact_range request ->
  on_response request res = Follow next_url request' ->
  (S (hops_left (InString next_url) (Request.as_init request'))
   <= Z.to_nat (Request.follow request - Request.counter request))%nat.
Proof.
  intros Hrange Hon.
  destruct (on_response_Follow _ _ _ _ Hon) as (_ & _ & _ & Hlt & _).
  unfold hops_left.
  destruct (Request_constructor (InString next_url)
              (Request.as_init request')) as [e | next] eqn:Hnext; [lia|].
  destruct (hop_counter_exact _ _ Hrange (hop_intro _ _ _ _ _ Hon Hnext))
    as (Hc & Hf & _).
  rewrite Hc, Hf. lia.
Qed.

(** The recursion of [fetch] is bounded by [follow], for a counter from
    -2^53 and a limit up to 2^53: with one level of fuel more than the
    redirects that the descriptor may still follow, the promise is
    settled (or known to stay pending), and the transport is called at
    most once more than that number of redirects. *)
Theorem fetch_settles_within_follow fuel : forall n url_ opts,
  (forall request,
     Request_constructor url_ opts = inr request -> exact_range request) ->
  (hops_left url_ opts < fuel)%nat ->
  exists calls settled,
    fetch fuel n url_ opts = (calls, Some settled)
    /\ (length calls <= S (hops_left url_ opts))%nat.
Proof.
  induction fuel as [|fuel IH]; intros n url_ opts Hrange Hfuel; [lia|].
  assert (Hdef : exists calls settled,
             _default (fetch fuel (S n)) n url_ opts = (calls, Some settled)
             /\ (length calls <= S (hops_left url_ opts))%nat).
  { unfold _default. unfold hops_left in Hfuel |- *.
    destruct (Request_constructor url_ opts) as [e | request] eqn:Hreq.
    { eexists _, _. split; [reflexivity | simpl; lia]. }
    specialize (Hrange request eq_refl).
    destruct (getNodeRequestOptions request) as [e | options].
    { eexists _, _. split; [reflexivity | simpl; lia]. }
    cbv zeta.
    destruct (send n (transport_call options request)) as [message | res | |].
    - eexists _, _. split; [reflexivity | simpl; lia].
    - destruct (on_response request res) as [s | u r'] eqn:Hon.
      + eexists _, _. split; [reflexivity | simpl; lia].
      + pose proof (hop_shortens _ _ _ _ Hrange Hon) as Hs.
        destruct (IH (S n) (InString u) (Request.as_init r'))
          as (calls & settled & Heq & Hlen); [|lia|].
        { intros next Hnext.
          apply (hop_counter_exact _ _ Hrange
                   (hop_intro _ _ _ _ _ Hon Hnext)). }
        rewrite Heq. eexists _, _. split; [reflexivity | simpl; lia].
    - destruct (Request.timeout request =? 0)%Z;
        eexists _, _; (split; [reflexivity | simpl; lia]).
    - eexists _, _. split; [reflexivity | simpl; lia]. }
  cbn [fetch]. destruct url_ as [s | h str | r]; try exact Hdef.
  destruct (match_file s) as [path|].
  { destruct (readFile path); eexists _, _;
      (split; [reflexivity | simpl; lia]). }
  destruct (match_data s) as [[[type isBase64] dataString]|]; [|exact Hdef].
  eexists _, _. split; [reflexivity | simpl; lia].
Qed.

Lemma fetch_default fuel n url_ opts :
  network_input url_ ->
  fetch (S fuel) n url_ opts = _default (fetch fuel (S n)) n url_ opts.
Proof.
  intros Hnet. cbn [fetch]. destruct url_ as [s | h str | r]; try reflexivity.
  destruct Hnet as [Hf Hd]. now rewrite Hf, Hd.
Qed.

(** The part of the handler after the redirect block always settles. *)
Lemma terminal_settles request res :
  exists s, terminal request res = Settle s.
Proof.
  unfold terminal, respond.
  repeat match goal with
         | |- exists _, (if ?c then _ else _) = _ => destruct c
         | |- exists _, match ?c with _ => _ end = _ => destruct c
         end; eexists; reflexivity.
Qed.

(** Outside follow mode a fetch calls the transport at most once.  In
    mode [error] a redirect status rejects with [no-redirect] right after
    that call; in mode [manual] every response, redirects included, is
    what the promise settles with. *)
Theorem no_second_call_outside_follow_mode fuel n url_ opts request :
  Request_constructor url_ opts = inr request ->
  Request.redirect request = "manual" \/ Request.redirect request = "error" ->
  (length (fetch fuel n url_ opts).1 <= 1)%nat
  /\ forall options res,
       network_input url_ ->
       getNodeRequestOptions request = inr options ->
       send n (transport_call options request) = EvResponse res ->
       (Request.redirect request = "error" ->
        isRedirect (statusCode res) = true ->
        fetch (S fuel) n url_ opts
        = ([transport_call options request],
           Some (Rejected (RejFetch
                   {| fe_message :=
                        "redirect mode is set to error: " +:+ url request;
                      fe_kind := no_redirect;
                      fe_cause := None |}))))
       /\ (Request.redirect request = "manual" ->
           exists s,
             terminal request res = Settle s
             /\ fetch (S fuel) n url_ opts
                = ([transport_call options request], Some s)).
Proof.
  intros Hreq Hmode.
  assert (Hnofollow : forall res u r', on_response request res <> Follow u r').
  { intros res u r' Hon.
    destruct (on_response_Follow _ _ _ _ Hon) as (_ & Hm & He & _).
    destruct Hmode; contradiction. }
  split.
  - destruct fuel as [|fuel]; [simpl; lia|].
    assert (Hdef : (length (_default (fetch fuel (S n)) n url_ opts).1 <= 1)%nat).
    { unfold _default. rewrite Hreq.
      destruct (getNodeRequestOptions request) as [e | options];
        [simpl; lia|].
      cbv zeta.
      destruct (send n (transport_call options request))
        as [message | res | |]; try (simpl; lia).
      - destruct (on_response request res) as [s | u r'] eqn:Hon;
          [simpl; lia|]. now apply Hnofollow in Hon.
      - destruct (Request.timeout request =? 0)%Z; simpl; lia. }
    cbn [fetch]. destruct url_ as [s | h str | r]; try exact Hdef.
    destruct (match_file s) as [path|].
    { destruct (readFile path); simpl; lia. }
    destruct (match_data s) as [[[type isBase64] dataString]|];
      [simpl; lia | exact Hdef].
  - intros options res Hnet Ho Hsend.
    rewrite fetch_default by exact Hnet.
    unfold _default. rewrite Hreq, Ho. cbv zeta. rewrite Hsend. split.
    + intros He Hs.
      rewrite on_response_redirect; [|exact Hs | rewrite He; discriminate].
      rewrite He. reflexivity.
    + intros Hm. destruct (terminal_settles request res) as [s Hs].
      exists s. split; [exact Hs|].
      rewrite on_response_terminal by now right. now rewrite Hs.
Qed.

(** The handler never rejects with [request-timeout] or [system]. *)
Lemma on_response_rejection_kind request res s :
  on_response request res = Settle s ->
  rejection_kind (Some s) <> Some request_timeout
  /\ rejection_kind (Some s) <> Some system.
Proof.
  intros H.
  destruct (isRedirect (statusCode res)
            && negb (String.eqb (Request.redirect request) "manual")) eqn:Hr.
  - apply andb_true_iff in Hr. destruct Hr as [Hs Hm].
    apply negb_true_iff, String.eqb_neq in Hm.
    rewrite on_response_redirect in H by assumption. unfold reject in H.
    repeat match type of H with
           | (if ?c then _ else _) = _ => destruct c
           | match ?c with _ => _ end = _ => destruct c
           end; try discriminate; injection H as <-; split; discriminate.
  - unfold on_response in H. rewrite Hr in H.
    unfold terminal, respond in H.
    repeat match type of H with
           | (if ?c then _ else _) = _ => destruct c
           | match ?c with _ => _ end = _ => destruct c
           end; injection H as <-; split; discriminate.
Qed.

(** A timeout of zero arms no timer: whatever the transport does and
    however many redirects are followed, the fetch of a descriptor whose
    timeout is 0 is never rejected with [request-timeout]. *)
Theorem zero_timeout_never_times_out fuel : forall n url_ opts,
  (forall request,
     Request_constructor url_ opts = inr request ->
     Request.timeout request = 0) ->
  rejection_kind (fetch fuel n url_ opts).2 <> Some request_timeout.
Proof.
  induction fuel as [|fuel IH]; intros n url_ opts Hzero; [discriminate|].
  assert (Hdef : rejection_kind (_default (fetch fuel (S n)) n url_ opts).2
                 <> Some request_timeout).
  { unfold _default.
    destruct (Request_constructor url_ opts) as [e | request] eqn:Hreq;
      [discriminate|].
    specialize (Hzero request eq_refl).
    destruct (getNodeRequestOptions request) as [e | options];
      [discriminate|].
    cbv zeta.
    destruct (send n (transport_call options request))
      as [message | res | |]; try discriminate.
    - destruct (on_response request res) as [s | u r'] eqn:Hon.
      + apply (on_response_rejection_kind _ _ _ Hon).
      + destruct (on_response_Follow _ _ _ _ Hon) as (_ & _ & _ & _ & ->).
        specialize (IH (S n) (InString u)
                      (Request.as_init (redirected (statusCode res) request))).
        destruct (fetch fuel (S n) (InString u)
                    (Request.as_init (redirected (statusCode res) request)))
          as [calls settled].
        apply IH. intros next Hnext.
        destruct (Request_constructor_fields _ _ _ Hnext)
          as (_ & _ & _ & Ft & _).
        rewrite Ft. cbn [Request.as_init Init.timeout].
        destruct (redirected_more_fields (statusCode res) request)
          as (Rt & _).
        rewrite Rt, Hzero. reflexivity.
    - rewrite Hzero. discriminate. }
  cbn [fetch]. destruct url_ as [s | h str | r]; try exact Hdef.
  destruct (match_file s) as [path|].
  { destruct (readFile path); discriminate. }
  destruct (match_data s) as [[[type isBase64] dataString]|];
    [discriminate | exact Hdef].
Qed.

(** A redirect is followed through [fetch] itself, so a [Location] that
    resolves to a [file:] URL makes the fetch read that local file, and
    one that resolves to a [data:] URL makes it decode the inline data:
    in both cases the promise settles with that content after the one
    transport call. *)
Theorem redirect_reaches_local_schemes
    fuel n url_ opts request options res next_url request' :
  network_input url_ ->
  Request_constructor url_ opts = inr request ->
  getNodeRequestOptions request = inr options ->
  send n (transport_call options request) = EvResponse res ->
  on_response request res = Follow next_url request' ->
  (forall path,
     match_file next_url = Some path ->
     fetch (S (S fuel)) n url_ opts
     = ([transport_call options request], Some (file_outcome path)))
  /\ (forall type isBase64 dataString,
        match_file next_url = None ->
        match_data next_url = Some (type, isBase64, dataString) ->
        fetch (S (S fuel)) n url_ opts
        = ([transport_call options request],
           Some (Resolved
                   (data_response next_url type isBase64 dataString)))).
Proof.
  intros Hnet Hreq Ho Hsend Hon.
  rewrite fetch_default by exact Hnet.
  unfold _default. rewrite Hreq, Ho. cbv zeta. rewrite Hsend, Hon.
  split.
  - intros path Hf. cbn [fetch]. rewrite Hf. unfold file_outcome.
    now destruct (readFile path).
  - intros type isBase64 dataString Hf Hd. cbn [fetch].
    now rewrite Hf, Hd.
Qed.

End FetchMore.

Lemma next_hop_carries_options_witness :
  exists next,
    next_hop (env := simple_env silent) "http://example.com/next"
      (redirected 307 post_request) = inr next
    /\ Request.follow next = 20
    /\ Request.counter next = 1
    /\ Request.headers next !! "x-other" = None.
Proof.
  eexists. split; [reflexivity|].
  destruct (next_hop_carries_options (env := simple_env silent)
              (InString "http://example.com/") (Request.as_init post_request)
              post_request (redirect_response 307)
              "http://example.com/next" (redirected 307 post_request) _
              eq_refl eq_refl eq_refl)
    as (Hf & _ & _ & _ & _ & _ & Hc & _ & _ & Hh).
  split; [exact Hf|]. split; [exact Hc|].
  rewrite Hh; [reflexivity | discriminate | discriminate].
Defined.

Lemma fetch_settles_within_follow_witness :
  exists calls settled,
    fetch (env := redirecting_env) 3 0 (InString "http://example.com/")
      (follow_options 2 None) = (calls, Some settled)
    /\ (length calls <= 3)%nat.
Proof.
  apply (fetch_settles_within_follow (env := redirecting_env) 3 0
           (InString "http://example.com/") (follow_options 2 None)).
  - intros request [= <-]. split; vm_compute; discriminate.
  - vm_compute. apply le_n.
Defined.

Lemma no_second_call_outside_follow_mode_witness :
  (length (fetch (env := redirecting_env) 5 0
             (InString "http://example.com/") (redirect_options "error")).1
   <= 1)%nat.
Proof.
  eapply (proj1 (no_second_call_outside_follow_mode (env := redirecting_env)
                   5 0 (InString "http://example.com/")
                   (redirect_options "error") _ eq_refl _)).
  Unshelve. right. reflexivity.
Defined.

Lemma zero_timeout_never_times_out_witness :
  rejection_kind
    (fetch (env := simple_env timing_out) 3 0
       (InString "http://example.com/") Init.empty).2
  <> Some request_timeout.
Proof.
  apply (zero_timeout_never_times_out (env := simple_env timing_out)).
  intros request [= <-]. reflexivity.
Defined.

(** With a timeout the same transport makes the fetch fail with
    [request-timeout]. *)
Example timeout_rejects_with_request_timeout :
  rejection_kind
    (fetch (env := simple_env timing_out) 3 0
       (InString "http://example.com/") (timeout_options 500)).2
  = Some request_timeout.
Proof. vm_compute. reflexivity. Qed.

Lemma redirect_reaches_local_schemes_witness :
  exists call,
    fetch (env := file_env) 2 0 (InString "http://example.com/") Init.empty
    = ([call],
       Some (Resolved
               {| resp_body :=
                    BlobBody (list_byte_of_string "127.0.0.1 localhost") None;
                  resp_options := None |})).
Proof.
  eexists.
  refine (proj1 (redirect_reaches_local_schemes (env := file_env) 0 0
                   (InString "http://example.com/") Init.empty _ _ _ _ _
                   (conj eq_refl eq_refl) eq_refl eq_refl eq_refl eq_refl)
            "/etc/hosts" eq_refl).
Defined.

(** In manual mode the redirect response itself resolves the promise,
    after one transport call. *)
Example manual_mode_returns_the_redirect :
  exists call response,
    fetch (env := redirecting_env) 5 0 (InString "http://example.com/")
      (redirect_options "manual")
    = ([call], Some (Resolved response))
    /\ status_of response = Some 302
    /\ header_of "Location" response = Some "http://example.com/next".
Proof.
  eexists _, _. split; [vm_compute; reflexivity|]. split; reflexivity.
Qed.
